(** * gplugins: the gmsh layer-stack mesher and the sax MZI demo

    A shallow embedding of [gplugins/gmsh/xyz_mesh.py] and
    [gplugins/sax/tests/test_mzi.py].

    Conventions of the embedding.
    - In [xyz_mesh.py] a Python [float] (and a numpy scalar) is read as a
      real number [R]: arithmetic is exact, rounding is outside the model.
    - In [test_mzi.py], whose models are about the numbers they return, a
      Python [float] is an IEEE 754 binary64 number and a [complex] a pair
      of them; what JAX computes on complex arguments is taken as given.
    - Python [int] fields ([mesh_order], [dimension]) are [Z].
    - A Python [dict] is an insertion-ordered association list with the
      update discipline of the interpreter ([Py.dict_set]): assigning to a
      present key keeps its position, assigning to a new key appends.
      String-keyed dictionaries that the code only looks up are [gmap]s.
    - A raised exception is the [Raise] result of the [Py.result] monad.
    - Objects that are shared and mutated (the [resolutions] dictionaries)
      live in an explicit store indexed by object identity. *)

From Stdlib Require Import Reals Lra Lia ZArith.
From Stdlib Require Floats.
From stdpp Require Import base option list gmap strings.

(** ** The fragment of the Python runtime the two files rely on *)
Module Py.

Inductive exn : Set :=
  | KeyError
  | TypeError
  | UnboundLocalError
  | ValueError
  | AttributeError
  | ZeroDivisionError
  | ValidationError.

Inductive result (A : Type) : Type :=
  | Ok (a : A)
  | Raise (e : exn).
Arguments Ok {A} a.
Arguments Raise {A} e.

#[global] Instance result_ret : MRet result := fun A a => Ok a.
#[global] Instance result_bind : MBind result := fun A B k r =>
  match r with
  | Ok a => k a
  | Raise e => Raise e
  end.

Definition returns {A} (r : result A) : Prop := ∃ a, r = Ok a.
Definition raises {A} (r : result A) : Prop := ∃ e, r = Raise e.

#[global] Instance R_eq_dec : EqDecision R := Req_dec_T.

Section dict.
Context {K V : Type} `{EqDecision K}.

(** [d.get(k)]: the value stored under [k], if any. *)
Fixpoint dict_get (d : list (K * V)) (k : K) : option V :=
  match d with
  | [] => None
  | (k', v) :: d' => if decide (k' = k) then Some v else dict_get d' k
  end.

(** [d[k] = v]. *)
Fixpoint dict_set (d : list (K * V)) (k : K) (v : V) : list (K * V) :=
  match d with
  | [] => [(k, v)]
  | (k', v') :: d' =>
      if decide (k' = k) then (k', v) :: d' else (k', v') :: dict_set d' k v
  end.

(** [d[k]] as an expression. *)
Definition dict_subscript (d : list (K * V)) (k : K) : result V :=
  match dict_get d k with
  | Some v => Ok v
  | None => Raise KeyError
  end.

Definition dict_keys (d : list (K * V)) : list K := d.*1.
Definition dict_values (d : list (K * V)) : list V := d.*2.

(** [d1 | d2] and [d1.update(d2)]: the entries of [d2] are assigned in
    their order. *)
Definition dict_update (d1 d2 : list (K * V)) : list (K * V) :=
  foldl (fun d kv => dict_set d kv.1 kv.2) d1 d2.

(** [dict(pairs)] and dictionary comprehensions. *)
Definition dict_of_pairs (l : list (K * V)) : list (K * V) :=
  dict_update [] l.

End dict.

End Py.

(** ** gplugins/gmsh/xyz_mesh.py *)
Module Gmsh.
Import Py.
Local Open Scope R_scope.

(** *** Values and objects the mesher handles *)

(** The values found in the loosely typed ([dict[str, Any]]) port
    dictionaries: [None], a number, a string, or a small dictionary such
    as [{"resolution": 0.1}]. *)
Inductive pyval : Type :=
  | PNone
  | PNum (r : R)
  | PStr (s : string)
  | PDict (d : list (string * R)).

(** Truth value of an object, as [or] tests it. *)
Definition truthy (v : pyval) : bool :=
  match v with
  | PNone => false
  | PNum r => bool_decide (r ≠ 0)
  | PStr s => bool_decide (s ≠ EmptyString)
  | PDict d => bool_decide (d ≠ [])
  end.

(** [a or b]. *)
Definition py_or (a b : pyval) : pyval := if truthy a then a else b.

(** [zmax - zmin]: defined on two numbers, a [TypeError] on anything else
    this value universe contains. *)
Definition py_sub (a b : pyval) : result R :=
  match a, b with
  | PNum r1, PNum r2 => Ok (r1 - r2)
  | _, _ => Raise TypeError
  end.

(** [2 * v] for the integer literal 2: doubles a number, repeats a
    string. *)
Definition py_mul2 (v : pyval) : result pyval :=
  match v with
  | PNum r => Ok (PNum (2 * r))
  | PStr s => Ok (PStr (s +:+ s))
  | PNone | PDict _ => Raise TypeError
  end.

(** [w + v] for a float [w]. *)
Definition float_add (w : R) (v : pyval) : result R :=
  match v with
  | PNum r => Ok (w + r)
  | _ => Raise TypeError
  end.

(** Reading a local variable that a branch may have left unassigned. *)
Definition local {A} (v : option A) : result A :=
  match v with
  | Some a => Ok a
  | None => Raise UnboundLocalError
  end.

(** [meshwell.model.Model]: only its constructor argument is visible here. *)
Module Model.
Record t : Type := Make { n_threads : Z }.
End Model.

(** [gf.Port]: the attributes [define_edgeport] reads. *)
Module Port.
Record t : Type := Make {
  name : string;
  center : R * R;
  width : R;
  orientation : R }.
End Port.

(** [meshwell.gmsh_entity.GMSH_entity], built around [model.occ.add_box]. *)
Module GMSH_entity.
Inductive gmsh_function : Set := occ_add_box.
Record kwargs : Type := Kwargs {
  x : R; y : R; z : pyval; dx : R; dy : R; dz : R }.
Record t : Type := Make {
  gmsh_fn : gmsh_function;
  gmsh_function_kwargs : kwargs;
  dimension : Z;
  model : Model.t;
  resolution : pyval;
  mesh_order : Z;
  mesh_bool : bool;
  physical_name : pyval }.

End GMSH_entity.

(** [GMSH_entity] is a class of the meshwell package, whose code is not in
    this repository, and its constructor validates what it is given: a
    float as [resolution], for one, is refused. [GMSH_entity_rejects e] is
    the exception the constructor raises for the arguments [e], if any. *)
Class Meshwell : Type := {
  GMSH_entity_rejects : GMSH_entity.t → option exn }.

(** The call [GMSH_entity(...)]. *)
Definition GMSH_entity_new `{Meshwell} (e : GMSH_entity.t) :
    result GMSH_entity.t :=
  match GMSH_entity_rejects e with
  | Some ex => Raise ex
  | None => Ok e
  end.

(** [port_dict.get(key)] and [port_dict.get(key, default)]. *)
Definition get_or (d : gmap string pyval) (key : string) (dflt : pyval) : pyval :=
  default dflt (d !! key).

(** The local variable [width_pad] of [define_edgeport]. *)
Definition width_pad_of (port_dict : gmap string pyval) : pyval :=
  py_or (get_or port_dict "width_pad" PNone) (PNum 0).

(** [port.width + 2 * width_pad]. *)
Definition padded_width (port : Port.t) (width_pad : pyval) : result R :=
  v ← py_mul2 width_pad; float_add (Port.width port) v.

(** Lines 28-71: the unmeshed box that tags an edge port. *)
Definition define_edgeport `{Meshwell} (port : Port.t)
    (port_dict : gmap string pyval) (model : Model.t) : result GMSH_entity.t :=
  let zmin := get_or port_dict "zmin" PNone in
  let zmax := get_or port_dict "zmax" PNone in
  dz ← py_sub zmax zmin;
  let '(x, y) := Port.center port in
  let width_pad := width_pad_of port_dict in
  '(x, y, dx, dy) ←
    (if decide (Port.orientation port = 180) then
       let dx := 1 in
       dy ← padded_width port width_pad;
       mret (x - dx, y - dy / 2, Some dx, Some dy)
     else if decide (Port.orientation port = 0) then
       let dx := 1 in
       dy ← padded_width port width_pad;
       mret (x, y - dy / 2, Some dx, Some dy)
     else if decide (Port.orientation port = 90) then
       dx ← padded_width port width_pad;
       let dy := 1 in
       mret (x - dx / 2, y, Some dx, Some dy)
     else if decide (Port.orientation port = 270) then
       dx ← padded_width port width_pad;
       let dy := 1 in
       mret (x - dx / 2, y - dy, Some dx, Some dy)
     else mret (x, y, None, None));
  dx ← local dx;
  dy ← local dy;
  GMSH_entity_new
    (GMSH_entity.Make
       GMSH_entity.occ_add_box
       (GMSH_entity.Kwargs x y zmin dx dy dz)
       3
       model
       (get_or port_dict "resolution" PNone)
       0
       false
       (get_or port_dict "physical_name" (PStr (Port.name port)))).


(** The orientations for which [define_edgeport] assigns [dx] and [dy]. *)
Definition axis_aligned (o : R) : Prop := o = 0 ∨ o = 90 ∨ o = 180 ∨ o = 270.

(** *** The layer stack, the geometry kernel and the repository helpers *)

(** [gdsfactory.technology.LogicalLayer]: a GDS (layer, datatype) pair. *)
Module LogicalLayer.
Record t : Type := Make { layer : Z * Z }.
End LogicalLayer.

(** [gdsfactory.technology.LayerLevel]: the fields this file reads or
    writes. [z_to_bias] is [(coordinates, buffers)] or [None]. *)
Module LayerLevel.
Record t : Type := Make {
  layer : LogicalLayer.t;
  thickness : R;
  zmin : R;
  material : option string;
  mesh_order : Z;
  z_to_bias : option (list R * list R) }.
End LayerLevel.

(** [gdsfactory.technology.LayerStack]: an ordered dictionary of levels. *)
Module LayerStack.
Record t : Type := Make { layers : list (string * LayerLevel.t) }.
End LayerStack.

(** The shapely operations the file calls. [scale g xfact yfact origin] is
    [shapely.affinity.scale]; [bounds] is the [(minx, miny, maxx, maxy)]
    tuple of the [.bounds] attribute. The geometry engine is external. *)
Class Shapely : Type := {
  geom : Type;
  is_empty : geom → bool;
  scale : geom → R → R → R * R * R → geom;
  Polygon : list (R * R) → geom;
  unary_union : list geom → geom;
  bounds : geom → R * R * R * R }.

(** Functions of gplugins and gdsfactory that [xyz_mesh.py] imports and
    whose code is in other files: they are taken as given.
    [net_layers_component] stands for lines 208-215 ([component.dup()],
    [add_ports] and [get_component_with_net_layers], with the delimiter
    passed only when one is given). *)
Class Helpers `{Shapely} : Type := {
  Component : Type;
  component_ports : Component → list (string * Port.t);
  bufferize : LayerStack.t → LayerStack.t;
  cleanup_component :
    Component → LayerStack.t → Z → R → list (string * geom);
  list_unique_layer_stack_z : LayerStack.t → list R;
  net_layers_component :
    Component → list string → LayerStack.t → option string → Component;
  get_number_of_cores : Z }.

(** Identity of a heap-allocated object. *)
Definition loc : Set := positive.

(** The objects reachable from the [resolutions] argument: the outer
    dictionary maps a layer name to (a reference to) an inner dictionary
    such as [{"resolution": 0.3, "distance": 2}]. *)
Inductive obj : Type :=
  | ResolutionMap (entries : list (string * loc))
  | ResolutionSpec (fields : list (string * R)).

(** [meshwell.prism.Prism]. [resolution] is the very object stored in the
    caller's [resolutions] dictionary, or [None]. *)
Module Prism.
Record t `{Shapely} : Type := Make {
  polygons : geom;
  buffers : list (R * R);
  model : Model.t;
  resolution : option loc;
  mesh_order : Z;
  physical_name : string;
  mesh_bool : bool }.
End Prism.

(** What [prisms_list] holds once the edge ports are appended. *)
Inductive entity `{Shapely} : Type :=
  | EPrism (p : Prism.t)
  | EEntity (e : GMSH_entity.t).

Section define_prisms.
Context `{Helpers}.

(** [coords * thickness * scale_factor + zmin * scale_factor], one entry of
    the numpy array. *)
Definition z_level (layer_ : LayerLevel.t) (scale_factor c : R) : R :=
  c * LayerLevel.thickness layer_ * scale_factor
  + LayerLevel.zmin layer_ * scale_factor.

(** Lines 111-118: [dict(zip(zs, buffers))]. *)
Definition buffer_dict_of (layer_ : LayerLevel.t) (scale_factor : R)
    (z_to_bias : list R * list R) : list (R * R) :=
  let zs := map (z_level layer_ scale_factor) z_to_bias.1 in
  let buffers := map (fun b => b * scale_factor) z_to_bias.2 in
  dict_of_pairs (zip zs buffers).

(** [resolutions.get(layername, None)], after [None] has been replaced by
    the empty dictionary (lines 97-98). *)
Definition resolutions_get (resolutions : option (list (string * loc)))
    (layername : string) : option loc :=
  dict_get (default [] resolutions) layername.

(** [buffered_layer_stack.layers.get(layername).mesh_order]. *)
Definition layer_mesh_order (buffered_layer_stack : LayerStack.t)
    (layername : string) : result Z :=
  match dict_get (LayerStack.layers buffered_layer_stack) layername with
  | Some l => Ok (LayerLevel.mesh_order l)
  | None => Raise AttributeError
  end.

(** Lines 100-136: the loop over the layer names, with [prisms_list] as
    the accumulator. *)
Fixpoint define_prisms_loop
    (layer_polygons_dict : list (string * geom))
    (buffered_layer_stack : LayerStack.t)
    (layer_physical_map : gmap string string)
    (layer_meshbool_map : gmap string bool)
    (model : Model.t)
    (resolutions : option (list (string * loc)))
    (scale_factor : R)
    (layernames : list string)
    (prisms_list : list Prism.t) : result (list Prism.t) :=
  match layernames with
  | [] => Ok prisms_list
  | layername :: rest =>
      let continue := define_prisms_loop layer_polygons_dict
        buffered_layer_stack layer_physical_map layer_meshbool_map model
        resolutions scale_factor rest in
      polys ← dict_subscript layer_polygons_dict layername;
      if is_empty polys then continue prisms_list
      else
        layer_ ← dict_subscript (LayerStack.layers buffered_layer_stack) layername;
        match LayerLevel.z_to_bias layer_ with
        | None => continue prisms_list
        | Some z_to_bias =>
            let buffer_dict := buffer_dict_of layer_ scale_factor z_to_bias in
            mesh_order ← layer_mesh_order buffered_layer_stack layername;
            continue (prisms_list ++ [
              Prism.Make _
                (scale polys scale_factor scale_factor (0, 0, 0))
                buffer_dict
                model
                (resolutions_get resolutions layername)
                mesh_order
                (default layername (layer_physical_map !! layername))
                (default true (layer_meshbool_map !! layername)) ])
        end
  end.

(** Lines 74-138. *)
Definition define_prisms
    (layer_polygons_dict : list (string * geom))
    (layer_stack : LayerStack.t)
    (layer_physical_map : gmap string string)
    (layer_meshbool_map : gmap string bool)
    (model : Model.t)
    (resolutions : option (list (string * loc)))
    (scale_factor : R) : result (list Prism.t) :=
  let buffered_layer_stack := bufferize layer_stack in
  define_prisms_loop layer_polygons_dict buffered_layer_stack
    layer_physical_map layer_meshbool_map model resolutions scale_factor
    (dict_keys (LayerStack.layers buffered_layer_stack)) [].

End define_prisms.
(** *** What the specification says of [define_prisms] *)
Section define_prisms_spec.
Context `{Helpers}.

(** The layers that get a prism: polygons not empty and [z_to_bias] not
    [None]. *)
Definition wants_prism (layer_polygons_dict : list (string * geom))
    (buffered_layer_stack : LayerStack.t) (layername : string) : bool :=
  match dict_get layer_polygons_dict layername,
        dict_get (LayerStack.layers buffered_layer_stack) layername with
  | Some polys, Some layer_ =>
      negb (is_empty polys) && bool_decide (is_Some (LayerLevel.z_to_bias layer_))
  | _, _ => false
  end.

(** The buffer dictionary as the claim words it: every paired coordinate
    [c] and buffer [b] is found under its z-level. *)
Definition maps_every_pair (buffers : list (R * R)) (layer_ : LayerLevel.t)
    (scale_factor : R) (z_to_bias : list R * list R) : Prop :=
  ∀ c b, (c, b) ∈ zip z_to_bias.1 z_to_bias.2 →
    dict_get buffers (z_level layer_ scale_factor c) = Some (b * scale_factor).

(** The buffer dictionary as the code builds it: its entries come from the
    pairs, and of the pairs that share a z-level the last one is kept. *)
Definition maps_last_pair (buffers : list (R * R)) (layer_ : LayerLevel.t)
    (scale_factor : R) (z_to_bias : list R * list R) : Prop :=
  let pairs := zip z_to_bias.1 z_to_bias.2 in
  (∀ z v, dict_get buffers z = Some v →
     ∃ c b, (c, b) ∈ pairs ∧ z = z_level layer_ scale_factor c
            ∧ v = b * scale_factor)
  ∧ (∀ i c b, pairs !! i = Some (c, b) →
       (∀ j c' b', (i < j)%nat → pairs !! j = Some (c', b') →
          z_level layer_ scale_factor c' ≠ z_level layer_ scale_factor c) →
       dict_get buffers (z_level layer_ scale_factor c) = Some (b * scale_factor)).

(** The prism of one layer. *)
Definition prism_of_layer (layer_polygons_dict : list (string * geom))
    (buffered_layer_stack : LayerStack.t)
    (layer_physical_map : gmap string string)
    (layer_meshbool_map : gmap string bool)
    (model : Model.t)
    (resolutions : option (list (string * loc)))
    (scale_factor : R)
    (layername : string) (p : Prism.t) : Prop :=
  ∃ polys layer_ z_to_bias,
    dict_get layer_polygons_dict layername = Some polys
    ∧ dict_get (LayerStack.layers buffered_layer_stack) layername = Some layer_
    ∧ is_empty polys = false
    ∧ LayerLevel.z_to_bias layer_ = Some z_to_bias
    ∧ Prism.polygons p = scale polys scale_factor scale_factor (0, 0, 0)
    ∧ maps_last_pair (Prism.buffers p) layer_ scale_factor z_to_bias
    ∧ Prism.model p = model
    ∧ Prism.resolution p = resolutions_get resolutions layername
    ∧ Prism.mesh_order p = LayerLevel.mesh_order layer_
    ∧ Prism.physical_name p = default layername (layer_physical_map !! layername)
    ∧ Prism.mesh_bool p = default true (layer_meshbool_map !! layername).

End define_prisms_spec.

(** *** The store of shared objects *)

(** A computation that may raise and may update the store; the store is
    returned in both cases, so that what an interrupted run has already
    written stays visible. *)
Definition heap_op (A : Type) : Type := gmap loc obj → result A * gmap loc obj.

#[global] Instance heap_op_ret : MRet heap_op := fun A a h => (Ok a, h).
#[global] Instance heap_op_bind : MBind heap_op := fun A B k m h =>
  match m h with
  | (Ok a, h') => k a h'
  | (Raise e, h') => (Raise e, h')
  end.

Definition lift {A} (r : result A) : heap_op A := fun h => (r, h).

(** A new object, at an identity no live object has. *)
Definition alloc (o : obj) : heap_op loc := fun h =>
  let l := fresh (dom h) in (Ok l, <[l := o]> h).

Definition read_map (l : loc) : heap_op (list (string * loc)) := fun h =>
  match h !! l with
  | Some (ResolutionMap entries) => (Ok entries, h)
  | _ => (Raise AttributeError, h)
  end.

Definition read_spec (l : loc) : heap_op (list (string * R)) := fun h =>
  match h !! l with
  | Some (ResolutionSpec fields) => (Ok fields, h)
  | _ => (Raise TypeError, h)
  end.

Definition write (l : loc) (o : obj) : heap_op () := fun h =>
  (Ok (), <[l := o]> h).

(** [copy.deepcopy] of the items of the outer dictionary: every inner
    dictionary is copied once, the memo keeps sharing between entries. *)
Fixpoint deepcopy_items (items : list (string * loc)) (memo : gmap loc loc)
    (y : list (string * loc)) : heap_op (list (string * loc)) :=
  match items with
  | [] => mret y
  | (key, value) :: rest =>
      match memo !! value with
      | Some value' => deepcopy_items rest memo (dict_set y key value')
      | None =>
          fields ← read_spec value;
          value' ← alloc (ResolutionSpec fields);
          deepcopy_items rest (<[value := value']> memo) (dict_set y key value')
      end
  end.

(** [copy.deepcopy(resolutions)]. *)
Definition deepcopy (resolutions : option loc) : heap_op (option loc) :=
  match resolutions with
  | None => mret None
  | Some l =>
      entries ← read_map l;
      y ← deepcopy_items entries ∅ [];
      l' ← alloc (ResolutionMap y);
      mret (Some l')
  end.

(** Lines 305-306: [for r in resolutions.values(): r["resolution"] *= s]. *)
Fixpoint scale_resolutions (values : list loc) (s : R) : heap_op () :=
  match values with
  | [] => mret ()
  | r :: rest =>
      fields ← read_spec r;
      v ← lift (dict_subscript fields "resolution");
      _ ← write r (ResolutionSpec (dict_set fields "resolution" (v * s)));
      scale_resolutions rest s
  end.

(** Lines 300-308. The result is the object the local name [resolutions]
    is bound to afterwards. *)
Definition premesh_resolutions (resolutions : option loc) (s : R) : heap_op loc :=
  resolutions ← deepcopy resolutions;
  match resolutions with
  | None => alloc (ResolutionMap [])
  | Some l =>
      entries ← read_map l;
      if bool_decide (entries ≠ []) then
        _ ← scale_resolutions (dict_values entries) s;
        mret l
      else alloc (ResolutionMap [])
  end.

(** [l] is new with respect to [h0]: no object lived there in [h0]. *)
Definition fresh_for (h0 : gmap loc obj) (l : loc) : Prop := h0 !! l = None.

(** *** xyz_mesh *)

Module Padding.
(** [background_padding]: [-x, -y, -z, +x, +y, +z]. *)
Record t : Type := Make { p0 : R; p1 : R; p2 : R; p3 : R; p4 : R; p5 : R }.
End Padding.

(** [np.min] and [np.max] of a list: a [ValueError] on the empty one. *)
Definition np_min (zs : list R) : result R :=
  match zs with
  | [] => Raise ValueError
  | z :: zs' => Ok (foldl Rmin z zs')
  end.

Definition np_max (zs : list R) : result R :=
  match zs with
  | [] => Raise ValueError
  | z :: zs' => Ok (foldl Rmax z zs')
  end.

Section xyz_mesh.
Context `{Helpers} `{Meshwell}.

(** The arguments of [xyz_mesh] that the function itself inspects. The
    remaining ones ([default_characteristic_length], [global_scaling],
    the gmsh algorithm numbers, [filename], [verbosity], [gmsh_version],
    [background_remeshing_file], [optimization_flags]) are handed to
    [model.mesh] untouched and are left out. *)
Record xyz_mesh_args : Type := Args {
  component : Component;
  layer_stack : LayerStack.t;
  layer_physical_map : gmap string string;
  layer_meshbool_map : gmap string bool;
  resolutions : option loc;
  background_tag : option string;
  background_padding : Padding.t;
  background_mesh_order : Z;
  global_scaling_premesh : R;
  round_tol : Z;
  simplify_tol : R;
  n_threads : Z;
  port_names : option (list string);
  edge_ports : option (list (string * gmap string pyval));
  layer_port_delimiter : option string }.

(** The defaults of the signature (lines 146-165). *)
Definition default_args (component : Component) (layer_stack : LayerStack.t)
    (layer_physical_map : gmap string string)
    (layer_meshbool_map : gmap string bool) : xyz_mesh_args :=
  {| component := component;
     layer_stack := layer_stack;
     layer_physical_map := layer_physical_map;
     layer_meshbool_map := layer_meshbool_map;
     resolutions := None;
     background_tag := None;
     background_padding := Padding.Make 2 2 2 2 2 2;
     background_mesh_order := (2 ^ 63 - 1)%Z;
     global_scaling_premesh := 1;
     round_tol := 3%Z;
     simplify_tol := 1 / 1000;
     n_threads := get_number_of_cores;
     port_names := None;
     edge_ports := None;
     layer_port_delimiter := None |}.

(** The four corners handed to [Polygon] (lines 235-252). *)
Definition background_corners (b : R * R * R * R) (pad : Padding.t)
    : list (R * R) :=
  let '(b0, b1, b2, b3) := b in
  [ (b0 - Padding.p0 pad, b1 - Padding.p1 pad);
    (b0 - Padding.p0 pad, b3 + Padding.p4 pad);
    (b2 + Padding.p3 pad, b3 + Padding.p4 pad);
    (b2 + Padding.p3 pad, b1 - Padding.p1 pad) ].

(** The [LayerLevel] of the background (lines 260-271); [z_to_bias] keeps
    its default, [None]. *)
Definition background_level (tag : string) (zmin zmax : R)
    (pad : Padding.t) (order : Z) (s : R) : LayerLevel.t :=
  LayerLevel.Make
    (LogicalLayer.Make (999, 0)%Z)
    (((zmax + Padding.p5 pad) - (zmin - Padding.p2 pad)) * s)
    ((zmin - Padding.p2 pad) * s)
    (Some tag)
    order
    None.

(** Lines 223-273: add the background polygon and its level. *)
Definition add_background (a : xyz_mesh_args)
    (layer_polygons_dict : list (string * geom)) (layer_stack : LayerStack.t)
    : result (list (string * geom) * LayerStack.t) :=
  match background_tag a with
  | None => Ok (layer_polygons_dict, layer_stack)
  | Some tag =>
      let bbox := unary_union (dict_values layer_polygons_dict) in
      let bounds := bounds bbox in
      let zs := list_unique_layer_stack_z layer_stack in
      zmin ← np_min zs;
      zmax ← np_max zs;
      let s := global_scaling_premesh a in
      let layer_polygons_dict :=
        dict_set layer_polygons_dict tag
          (scale (Polygon (background_corners bounds (background_padding a)))
             s s (0, 0, 0)) in
      let layer_stack :=
        LayerStack.Make
          (dict_update (LayerStack.layers layer_stack)
             [(tag, background_level tag zmin zmax (background_padding a)
                      (background_mesh_order a) s)]) in
      Ok (layer_polygons_dict, layer_stack)
  end.

(** Lines 288-299: one box per requested edge port, appended in order. *)
Fixpoint add_edgeports (ports : list (string * Port.t))
    (edge_ports : list (string * gmap string pyval)) (model : Model.t)
    (prisms_list : list entity) : result (list entity) :=
  match edge_ports with
  | [] => Ok prisms_list
  | (portname, edge_ports_dict) :: rest =>
      port ← dict_subscript ports portname;
      box ← define_edgeport port edge_ports_dict model;
      add_edgeports ports rest model (prisms_list ++ [EEntity box])
  end.

(** The call [model.mesh(entities_list=prisms_list, ...)] that ends
    [xyz_mesh]; meshing itself is the external engine's work. *)
Record mesh_call : Type := Mesh {
  mesh_model : Model.t;
  entities_list : list entity }.

(** [resolutions] as [define_prisms] sees it: the outer dictionary. *)
Definition resolutions_entries (resolutions : option loc)
    : heap_op (option (list (string * loc))) :=
  match resolutions with
  | None => mret None
  | Some l => entries ← read_map l; mret (Some entries)
  end.

(** Lines 141-321. *)
Definition xyz_mesh (a : xyz_mesh_args) : heap_op mesh_call :=
  let component :=
    match port_names a with
    | Some (_ :: _ as names) =>
        net_layers_component (component a) names (layer_stack a)
          (match layer_port_delimiter a with
           | Some EmptyString | None => None
           | Some d => Some d
           end)
    | _ => component a
    end in
  let layer_polygons_dict :=
    cleanup_component component (layer_stack a) (round_tol a) (simplify_tol a) in
  '(layer_polygons_dict, layer_stack) ←
    lift (add_background a layer_polygons_dict (layer_stack a));
  let model := Model.Make (n_threads a) in
  entries ← resolutions_entries (resolutions a);
  prisms_list ← lift (define_prisms layer_polygons_dict layer_stack
                        (layer_physical_map a) (layer_meshbool_map a) model
                        entries (global_scaling_premesh a));
  let prisms_list := EPrism <$> prisms_list in
  prisms_list ←
    match edge_ports a with
    | None => mret prisms_list
    | Some edge_ports =>
        lift (add_edgeports (component_ports component) edge_ports model prisms_list)
    end;
  _ ← premesh_resolutions (resolutions a) (global_scaling_premesh a);
  mret (Mesh model prisms_list).

End xyz_mesh.

(** *** Names for two intermediate values of [xyz_mesh] *)
Section xyz_mesh_values.
Context `{Helpers}.

(** The value of [component] after lines 207-215. *)
Definition xyz_mesh_component (a : xyz_mesh_args) : Component :=
  match port_names a with
  | Some (_ :: _ as names) =>
      net_layers_component (component a) names (layer_stack a)
        (match layer_port_delimiter a with
         | Some EmptyString | None => None
         | Some d => Some d
         end)
  | _ => component a
  end.

(** The value of [layer_polygons_dict] after lines 219-221. *)
Definition xyz_mesh_polygons (a : xyz_mesh_args) : list (string * geom) :=
  cleanup_component (xyz_mesh_component a) (layer_stack a) (round_tol a)
    (simplify_tol a).

End xyz_mesh_values.
End Gmsh.

(** ** gplugins/sax/tests/test_mzi.py *)
Module Sax.
Import Py.
Import Floats.
Local Open Scope float_scope.

(** Python's [complex]: a real and an imaginary part, both binary64. *)
Definition complex : Type := float * float.

(** A float operand is converted to a complex before a mixed operation. *)
Definition of_float (x : float) : complex := (x, 0).

(** The product of two complex numbers, as the interpreter computes it
    ([_Py_c_prod]). *)
Definition cmul (a b : complex) : complex :=
  (a.1 * b.1 - a.2 * b.2, a.1 * b.2 + a.2 * b.1).

(** [x < 0 ? -x : x]. *)
Definition fabs (x : float) : float := if x <? 0 then - x else x.

(** The quotient of two complex numbers, as the interpreter computes it
    ([_Py_c_quot]): numerator and denominator are first divided by the
    larger part of the divisor; a divisor whose larger part is zero is a
    [ZeroDivisionError], and one with a nan part gives nan. *)
Definition cdiv (a b : complex) : result complex :=
  let abs_breal := fabs b.1 in
  let abs_bimag := fabs b.2 in
  if abs_bimag <=? abs_breal then
    if abs_breal =? 0 then Raise ZeroDivisionError
    else
      let ratio := b.2 / b.1 in
      let denom := b.1 + b.2 * ratio in
      Ok ((a.1 + a.2 * ratio) / denom, (a.2 - a.1 * ratio) / denom)
  else if abs_breal <=? abs_bimag then
    let ratio := b.1 / b.2 in
    let denom := b.1 * ratio + b.2 in
    Ok ((a.1 * ratio + a.2) / denom, (a.2 * ratio - a.1) / denom)
  else Ok (nan, nan).

(** [jnp.exp] and [jnp.abs] of a complex number are routines of JAX, whose
    code is not in this repository. They are taken as given, with what
    IEEE 754 arithmetic fixes at the arguments that are not numbers: the
    exponential of an infinite imaginary part has no value (its cosine
    and sine are nan), and the magnitude of nan is nan. *)
Class Jax : Type := {
  jnp_exp : complex → complex;
  jnp_abs : complex → float;
  jnp_exp_infinite (x y : float) :
    is_finite x = true → is_infinity y = true → jnp_exp (x, y) = (nan, nan);
  jnp_abs_nan : jnp_abs (nan, nan) = nan }.

(** What an S-dict holds: a Python float or a complex number. *)
Inductive num : Type :=
  | Float (x : float)
  | Complex (z : complex).

(** [jnp.abs(v)]. *)
Definition magnitude `{Jax} (v : num) : float :=
  match v with
  | Float x => abs x
  | Complex z => jnp_abs z
  end.

(** [jnp.abs(v) ** 2], the power carried by a coefficient (lines 37-39,
    55), with JAX in its 64-bit mode, where its floats are those of Python
    and NumPy; the square is one multiplication. *)
Definition power `{Jax} (v : num) : float :=
  let a := magnitude v in a * a.

(** [c * v] for a float [c]. *)
Definition times (c : float) (v : num) : num :=
  match v with
  | Float x => Float (c * x)
  | Complex z => Complex (cmul (of_float c) z)
  end.

(** [sax.SDict]: coefficients indexed by (input port, output port). *)
Definition port_pair : Type := string * string.

(** [sax.reciprocal] (the sax library): the entries of the argument,
    followed by their mirror images. *)
Definition reciprocal {V} (sdict : list (port_pair * V)) : list (port_pair * V) :=
  dict_update
    (dict_of_pairs (map (fun '((p1, p2), v) => ((p1, p2), v)) sdict))
    (map (fun '((p1, p2), v) => ((p2, p1), v)) sdict).

(** [jnp.pi], 3.141592653589793. *)
Definition pi : float := 0x1.921fb54442d18p+1.

(** Lines 10-12. *)
Definition straight `{Jax} (wl length neff : float) :
    result (list (port_pair * num)) :=
  phase ← cdiv (cmul (cmul (cmul (0, 2) (of_float pi)) (of_float neff))
                     (of_float length))
               (of_float wl);
  mret (reciprocal
          (dict_of_pairs [(("o1", "o2") : port_pair, Complex (jnp_exp phase))])).

(** The defaults of [straight] and [bend_euler]: 1.5, 10.0, 2.4 and
    1.5, 20.0. *)
Definition straight_default_wl : float := 1.5.
Definition straight_default_length : float := 10.
Definition straight_default_neff : float := 0x1.3333333333333p+1.
Definition bend_euler_default_wl : float := 1.5.
Definition bend_euler_default_length : float := 20.

(** The constant [0.5**0.5]. The power of two Python floats is the [pow]
    of the C library, which gives 0.7071067811865476 here: the binary64
    number nearest to the square root of one half, as [sqrt] does. *)
Definition half_pow_half : float := sqrt 0.5.

(** Lines 15-22. *)
Definition mmi1x2 : list (port_pair * num) :=
  reciprocal (dict_of_pairs
    [ (("o1", "o2") : port_pair, Float half_pow_half);
      (("o1", "o3") : port_pair, Float half_pow_half) ]).

(** The literal [0.99]. *)
Definition bend_factor : float := 0x1.fae147ae147aep-1.

(** Lines 25-27; [straight] is called with its default [neff]. *)
Definition bend_euler `{Jax} (wl length : float) :
    result (list (port_pair * num)) :=
  s ← straight wl length straight_default_neff;
  mret (dict_of_pairs (map (fun '(k, v) => (k, times bend_factor v)) s)).

(** Lines 37-39: [S[k] = jnp.abs(v) ** 2] for every item of [S], in place;
    the function returns nothing, the model returns the updated [S]. *)
Definition module `{Jax} (S : list (port_pair * num)) : list (port_pair * num) :=
  foldl (fun S' kv => dict_set S' kv.1 (Float (power kv.2))) S S.

(** The wavelength 5e-324, the smallest positive binary64 number. *)
Definition tiny : float := 0x1p-1074.

(** A stand-in for the two routines of JAX: the exponential to first
    order and the magnitude by the textbook formula, nan where the
    argument is not finite. *)
Definition first_order_exp (z : complex) : complex :=
  if is_finite z.1 && is_finite z.2 then (1 + z.1, z.2) else (nan, nan).

Definition textbook_abs (z : complex) : float := sqrt (z.1 * z.1 + z.2 * z.2).

End Sax.

(** ** The data of the [__main__] script of xyz_mesh.py (lines 324-390) *)
Module Script.
Import Py Gmsh.
Local Open Scope R_scope.

(** The [edge_ports] entry for port o1 (lines 381-389). *)
Definition o1_dict : gmap string pyval :=
  {[ "zmin" := PNum (-1);
     "zmax" := PNum 1;
     "resolution" := PDict [("resolution", 0.1)];
     "physical_name" := PStr "edgeport";
     "width_pad" := PNum 1 ]}.

(** The left port of a straight waveguide: it faces -x. *)
Definition o1 : Port.t := Port.Make "o1" (0, 0) 0.5 180.

Definition model : Model.t := Model.Make 1.

(** One implementation of the two interfaces, small enough to run the
    functions on the data of the script: a geometry is a list of rings,
    a component carries its polygons per layer and its ports. *)
Definition ring_bounds (g : list (list (R * R))) : R * R * R * R :=
  match concat g with
  | [] => (0, 0, 0, 0)
  | p :: ps =>
      (foldl Rmin p.1 ps.*1, foldl Rmin p.2 ps.*2,
       foldl Rmax p.1 ps.*1, foldl Rmax p.2 ps.*2)
  end.

#[local] Instance rings : Shapely := {|
  geom := list (list (R * R));
  is_empty g := match g with [] => true | _ => false end;
  scale g xfact yfact origin :=
    map (map (fun p : R * R =>
      (origin.1.1 + (p.1 - origin.1.1) * xfact,
       origin.1.2 + (p.2 - origin.1.2) * yfact))) g;
  Polygon pts := [pts];
  unary_union gs := concat gs;
  bounds := ring_bounds |}.

Record layout : Type := Layout {
  layout_polygons : list (string * list (list (R * R)));
  layout_ports : list (string * Port.t) }.

Definition flat_bias (l : LayerLevel.t) : LayerLevel.t :=
  match LayerLevel.z_to_bias l with
  | Some _ => l
  | None =>
      LayerLevel.Make (LayerLevel.layer l) (LayerLevel.thickness l)
        (LayerLevel.zmin l) (LayerLevel.material l) (LayerLevel.mesh_order l)
        (Some ([0; 1], [0; 0]))
  end.

#[local] Instance layouts : Helpers := {|
  Component := layout;
  component_ports := layout_ports;
  bufferize ls :=
    LayerStack.Make (map (fun kv => (kv.1, flat_bias kv.2)) (LayerStack.layers ls));
  cleanup_component c _ _ _ := layout_polygons c;
  list_unique_layer_stack_z ls :=
    map (fun kv => LayerLevel.zmin kv.2) (LayerStack.layers ls)
    ++ map (fun kv => LayerLevel.zmin kv.2 + LayerLevel.thickness kv.2)
         (LayerStack.layers ls);
  net_layers_component c _ _ _ := c;
  get_number_of_cores := 1%Z |}.

(** A stand-in for the validation of meshwell: the resolution is [None] or
    a dictionary, the physical name is a string. *)
#[local] Instance checks : Meshwell := {|
  GMSH_entity_rejects e :=
    match GMSH_entity.resolution e, GMSH_entity.physical_name e with
    | (PNone | PDict _), PStr _ => None
    | _, _ => Some ValidationError
    end |}.

(** The filtered layer stack of lines 344-368. *)
Definition level (thickness zmin : R) (mesh_order : Z) : LayerLevel.t :=
  LayerLevel.Make (LogicalLayer.Make (1, 0)%Z) thickness zmin None mesh_order None.

Definition filtered_layer_stack : LayerStack.t :=
  LayerStack.Make
    [ ("box", level 3 (-3) 2); ("clad", level 3 0 3); ("core", level 0.22 0 1) ].

(** A 40 x 0.5 waveguide with its wafer, 3 wider on each side. *)
Definition waveguide : list (list (R * R)) :=
  [[(0, -0.25); (0, 0.25); (40, 0.25); (40, -0.25)]].
Definition wafer : list (list (R * R)) :=
  [[(0, -3.25); (0, 3.25); (40, 3.25); (40, -3.25)]].

Definition c : layout :=
  Layout [("box", wafer); ("clad", wafer); ("core", waveguide)]
         [("o1", o1); ("o2", Port.Make "o2" (40, 0) 0.5 0)].

(** A core whose side wall has a vertical step half-way up: the bias
    jumps from 0 to 1 at the normalised height 0.5. *)
Definition stepped_core : LayerLevel.t :=
  LayerLevel.Make (LogicalLayer.Make (1, 0)%Z) 1 0 None 1
    (Some ([0; 0.5; 0.5; 1], [0; 0; 1; 1])).

Definition stepped_stack : LayerStack.t :=
  LayerStack.Make [("core", stepped_core)].

(** [xyz_mesh(component=c, layer_stack=filtered_layer_stack, ...,
    background_tag=tag, global_scaling_premesh=s)], the other arguments at
    their defaults. *)
Definition background_args (tag : string) (s : R) : xyz_mesh_args :=
  {| component := c;
     layer_stack := filtered_layer_stack;
     layer_physical_map := ∅;
     layer_meshbool_map := ∅;
     resolutions := None;
     background_tag := Some tag;
     background_padding := Padding.Make 2 2 2 2 2 2;
     background_mesh_order := (2 ^ 63 - 1)%Z;
     global_scaling_premesh := s;
     round_tol := 3%Z;
     simplify_tol := 1 / 1000;
     n_threads := 1%Z;
     port_names := None;
     edge_ports := None;
     layer_port_delimiter := None |}.

(** The [resolutions] of the script, [{"core": {"resolution": 0.3}}], as
    two objects of the store: the outer dictionary at 1, the inner at 2. *)
Definition resolutions_heap : gmap loc obj :=
  {[ 1%positive := ResolutionMap [("core", 2%positive)];
     2%positive := ResolutionSpec [("resolution", 0.3)] ]}.

(** The call of lines 373-390 without its edge ports, with empty maps for
    the two required arguments it leaves out, and a premesh scaling. *)
Definition mesh_args (s : R) : xyz_mesh_args :=
  {| component := c;
     layer_stack := filtered_layer_stack;
     layer_physical_map := ∅;
     layer_meshbool_map := ∅;
     resolutions := Some 1%positive;
     background_tag := None;
     background_padding := Padding.Make 2 2 2 2 2 2;
     background_mesh_order := (2 ^ 63 - 1)%Z;
     global_scaling_premesh := s;
     round_tol := 3%Z;
     simplify_tol := 1 / 1000;
     n_threads := 1%Z;
     port_names := None;
     edge_ports := None;
     layer_port_delimiter := None |}.

(** The call of lines 373-390 with the layer stack, the resolutions, the
    background tag, the premesh scaling and the edge ports left open. *)
Definition call_args (layer_stack : LayerStack.t) (resolutions : option loc)
    (background_tag : option string) (s : R)
    (edge_ports : option (list (string * gmap string pyval))) : xyz_mesh_args :=
  {| component := c;
     layer_stack := layer_stack;
     layer_physical_map := ∅;
     layer_meshbool_map := ∅;
     resolutions := resolutions;
     background_tag := background_tag;
     background_padding := Padding.Make 2 2 2 2 2 2;
     background_mesh_order := (2 ^ 63 - 1)%Z;
     global_scaling_premesh := s;
     round_tol := 3%Z;
     simplify_tol := 1 / 1000;
     n_threads := 1%Z;
     port_names := None;
     edge_ports := edge_ports;
     layer_port_delimiter := None |}.

(** Resolutions that only give a distance, [{"core": {"distance": 2}}]. *)
Definition distance_heap : gmap loc obj :=
  {[ 1%positive := ResolutionMap [("core", 2%positive)];
     2%positive := ResolutionSpec [("distance", 2)] ]}.

End Script.

(** * Properties *)

Import Py.

(** ** Dictionaries *)
Section dict_facts.
Context {K V : Type} `{EqDecision K}.
Implicit Types (d l : list (K * V)) (k : K) (v : V).

Lemma dict_get_set_eq d k v : dict_get (dict_set d k v) k = Some v.
Proof.
  induction d as [|[k' v'] d IH]; simpl.
  - by rewrite decide_True.
  - destruct (decide (k' = k)) as [->|Hne]; simpl.
    + by rewrite decide_True.
    + by rewrite decide_False.
Qed.

Lemma dict_get_set_ne d k k' v :
  k ≠ k' → dict_get (dict_set d k v) k' = dict_get d k'.
Proof.
  intros Hne. induction d as [|[k0 v0] d IH]; simpl.
  - by rewrite decide_False.
  - destruct (decide (k0 = k)) as [->|Hk0]; simpl.
    + by rewrite !decide_False.
    + by rewrite IH.
Qed.

Lemma dict_get_None d k : dict_get d k = None ↔ k ∉ dict_keys d.
Proof.
  unfold dict_keys. induction d as [|[k' v'] d IH]; simpl.
  - split; [intros _; apply not_elem_of_nil | done].
  - rewrite not_elem_of_cons. destruct (decide (k' = k)) as [->|Hne].
    + split; [done | intros [? _]; done].
    + rewrite IH. split; [intros ?; split; [congruence|done] | tauto].
Qed.

Lemma dict_get_Some_elem d k v : dict_get d k = Some v → (k, v) ∈ d.
Proof.
  induction d as [|[k' v'] d IH]; simpl; [done|].
  destruct (decide (k' = k)) as [->|Hne].
  - intros [= ->]. apply list_elem_of_here.
  - intros Hg. apply list_elem_of_further, IH, Hg.
Qed.

Lemma dict_keys_set_present d k v :
  k ∈ dict_keys d → dict_keys (dict_set d k v) = dict_keys d.
Proof.
  unfold dict_keys. induction d as [|[k' v'] d IH]; simpl.
  - intros Hin. by apply elem_of_nil in Hin.
  - intros Hin. destruct (decide (k' = k)) as [->|Hne]; simpl; [done|].
    f_equal. apply IH. apply elem_of_cons in Hin as [?|?]; [congruence|done].
Qed.

Lemma dict_keys_set_absent d k v :
  k ∉ dict_keys d → dict_keys (dict_set d k v) = dict_keys d ++ [k].
Proof.
  unfold dict_keys. induction d as [|[k' v'] d IH]; simpl; [done|].
  intros [Hne Hin]%not_elem_of_cons.
  rewrite decide_False by congruence. simpl. f_equal. by apply IH.
Qed.

Lemma dict_update_cons d k v l :
  dict_update d ((k, v) :: l) = dict_update (dict_set d k v) l.
Proof. done. Qed.

Lemma dict_get_update_notin d l k :
  k ∉ dict_keys l → dict_get (dict_update d l) k = dict_get d k.
Proof.
  unfold dict_keys. revert d. induction l as [|[k' v'] l IH]; intros d; [done|].
  rewrite fmap_cons. intros [Hne Hin]%not_elem_of_cons.
  rewrite dict_update_cons, IH by done. apply dict_get_set_ne. intros ->. by apply Hne.
Qed.

(** The last assignment to a key is the one that is kept. *)
Lemma dict_get_update_last d l1 k v l2 :
  k ∉ dict_keys l2 →
  dict_get (dict_update d (l1 ++ (k, v) :: l2)) k = Some v.
Proof.
  intros Hin. unfold dict_update. rewrite foldl_app. simpl.
  fold (dict_update (dict_set (foldl (fun d kv => dict_set d kv.1 kv.2) d l1) k v) l2).
  rewrite dict_get_update_notin by done. apply dict_get_set_eq.
Qed.

Lemma dict_get_update_Some d l k v :
  dict_get (dict_update d l) k = Some v →
  (k, v) ∈ l ∨ dict_get d k = Some v.
Proof.
  revert d. induction l as [|[k' v'] l IH]; intros d; [by right|].
  rewrite dict_update_cons. intros [Hin|Hg]%IH.
  - left. by apply list_elem_of_further.
  - destruct (decide (k' = k)) as [->|Hne].
    + rewrite dict_get_set_eq in Hg. injection Hg as ->.
      left. apply list_elem_of_here.
    + rewrite dict_get_set_ne in Hg by done. by right.
Qed.

Lemma dict_get_of_pairs_Some l k v :
  dict_get (dict_of_pairs l) k = Some v → (k, v) ∈ l.
Proof. intros [?|?]%dict_get_update_Some; done. Qed.

Lemma dict_get_of_pairs_last l1 k v l2 :
  k ∉ dict_keys l2 → dict_get (dict_of_pairs (l1 ++ (k, v) :: l2)) k = Some v.
Proof. apply dict_get_update_last. Qed.

End dict_facts.

(** ** The sax models *)
Section sax_facts.
Import Sax Floats.
Local Open Scope float_scope.
Context {jax : Jax}.

Lemma reciprocal_single {V} (p1 p2 : string) (v : V) :
  p1 ≠ p2 →
  reciprocal (dict_of_pairs [((p1, p2), v)]) = [((p1, p2), v); ((p2, p1), v)].
Proof.
  intros Hne. unfold reciprocal, dict_of_pairs, dict_update. simpl.
  rewrite decide_False by congruence. done.
Qed.

(** The test [abs_breal == 0.0] of the quotient, for a divisor without
    imaginary part, is the test [wl == 0.0]. *)
Lemma fabs_zero (x : float) : (0 <=? fabs x) && (fabs x =? 0) = (x =? 0).
Proof.
  unfold fabs. rewrite !leb_spec, !eqb_spec, (ltb_spec x 0).
  change (Prim2SF 0) with (S754_zero false).
  destruct (Prim2SF x) as [s|s| |s m e] eqn:Hx; simpl.
  all: try (rewrite ?Hx; simpl; try destruct s; reflexivity).
  all: try (destruct s; simpl; rewrite ?opp_spec, ?Hx; simpl; reflexivity).
Qed.

Lemma cdiv_by_zero (a : complex) (wl : float) :
  (wl =? 0) = true → cdiv a (of_float wl) = Raise ZeroDivisionError.
Proof.
  intros Hwl. rewrite <- fabs_zero in Hwl.
  apply andb_true_iff in Hwl as [Hle Heq].
  unfold cdiv, of_float. cbn [fst snd]. change (fabs 0) with 0%float.
  by rewrite Hle, Heq.
Qed.

Lemma cdiv_by_nonzero (a : complex) (wl : float) :
  (wl =? 0) = false → returns (cdiv a (of_float wl)).
Proof.
  intros Hwl. rewrite <- fabs_zero in Hwl.
  unfold cdiv, of_float. cbn [fst snd]. change (fabs 0) with 0%float.
  destruct (0 <=? fabs wl); simpl in Hwl.
  - rewrite Hwl. by eexists.
  - destruct (fabs wl <=? 0); by eexists.
Qed.

Lemma straight_zero_wavelength (wl length neff : float) :
  (wl =? 0) = true → straight wl length neff = Raise ZeroDivisionError.
Proof. intros Hwl. unfold straight. by rewrite cdiv_by_zero. Qed.

Lemma straight_returns (wl length neff : float) :
  (wl =? 0) = false →
  ∃ phase,
    cdiv (cmul (cmul (cmul (0, 2) (of_float pi)) (of_float neff))
               (of_float length)) (of_float wl) = Ok phase
    ∧ straight wl length neff
      = Ok [ (("o1", "o2"), Complex (jnp_exp phase));
             (("o2", "o1"), Complex (jnp_exp phase)) ].
Proof.
  intros Hwl. unfold straight.
  destruct (cdiv_by_nonzero
              (cmul (cmul (cmul (0, 2) (of_float pi)) (of_float neff))
                    (of_float length)) wl Hwl) as [phase Hphase].
  exists phase. split; [done|]. rewrite Hphase. simpl.
  by rewrite <- (reciprocal_single "o1" "o2").
Qed.

Lemma straight_inv (wl length neff : float) s :
  straight wl length neff = Ok s →
  (wl =? 0) = false
  ∧ ∃ t, s = [(("o1", "o2"), Complex t); (("o2", "o1"), Complex t)].
Proof.
  intros Hs. destruct (wl =? 0) eqn:Hwl.
  - by rewrite straight_zero_wavelength in Hs.
  - split; [done|].
    destruct (straight_returns wl length neff Hwl) as (phase & _ & Hr).
    rewrite Hr in Hs. injection Hs as <-. by eexists.
Qed.

(** With the default length and index, the phase of the wavelength 5e-324
    is infinite, and what [jnp.exp] makes of it is not a number. *)
Lemma straight_overflow :
  straight tiny straight_default_length straight_default_neff
  = Ok [ (("o1", "o2"), Complex (nan, nan)); (("o2", "o1"), Complex (nan, nan)) ].
Proof.
  assert ((tiny =? 0) = false) as Hwl by reflexivity.
  destruct (straight_returns tiny straight_default_length
              straight_default_neff Hwl) as (phase & Hphase & ->).
  assert (phase = (0, infinity)) as ->.
  { assert (cdiv (cmul (cmul (cmul (0, 2) (of_float pi))
                             (of_float straight_default_neff))
                       (of_float straight_default_length)) (of_float tiny)
            = Ok (0, infinity)) as Hq by (vm_compute; reflexivity).
    rewrite Hq in Hphase. by injection Hphase as <-. }
  by rewrite jnp_exp_infinite.
Qed.

Lemma magnitude_nan : magnitude (Complex (nan, nan)) = nan.
Proof. apply jnp_abs_nan. Qed.

(** C6, as the code has it. For a wavelength that is not zero [straight]
    returns the reciprocal S-dict whose one independent coefficient, for
    (o1, o2), is [jnp.exp] of the binary64 quotient
    [2j * pi * neff * length / wl]; a zero wavelength raises. Nothing
    keeps the magnitude at 1: with the default length and index the
    quotient of the wavelength 5e-324 is infinite and the coefficient is
    not a number. *)
Theorem straight_transmission (wl length neff : float) :
  ((wl =? 0) = true → straight wl length neff = Raise ZeroDivisionError)
  ∧ ((wl =? 0) = false →
     ∃ phase,
       cdiv (cmul (cmul (cmul (0, 2) (of_float pi)) (of_float neff))
                  (of_float length)) (of_float wl) = Ok phase
       ∧ straight wl length neff
         = Ok [ (("o1", "o2"), Complex (jnp_exp phase));
                (("o2", "o1"), Complex (jnp_exp phase)) ])
  ∧ (∃ t,
       straight tiny straight_default_length straight_default_neff
       = Ok [(("o1", "o2"), t); (("o2", "o1"), t)]
       ∧ t = Complex (nan, nan)
       ∧ magnitude t = nan
       ∧ (magnitude t =? 1) = false).
Proof.
  split; [apply straight_zero_wavelength|].
  split; [apply straight_returns|].
  eexists. split; [apply straight_overflow|]. split; [done|].
  rewrite magnitude_nan. done.
Qed.

Lemma mmi1x2_entries :
  mmi1x2 = [ (("o1", "o2"), Float half_pow_half);
             (("o1", "o3"), Float half_pow_half);
             (("o2", "o1"), Float half_pow_half);
             (("o3", "o1"), Float half_pow_half) ].
Proof. reflexivity. Qed.

Lemma mmi1x2_coefficient (k : port_pair) (v : num) :
  dict_get mmi1x2 k = Some v → v = Float half_pow_half.
Proof.
  intros Hg. apply dict_get_Some_elem in Hg. rewrite mmi1x2_entries in Hg.
  repeat (apply elem_of_cons in Hg as [[= _ ->]|Hg]; [done|]).
  by apply elem_of_nil in Hg.
Qed.

(** The power of [0.5**0.5] is 0.5000000000000001. *)
Lemma power_half_pow_half :
  power (Float half_pow_half) = 0x1.0000000000001p-1.
Proof. reflexivity. Qed.

(** C7, as the code has it. [mmi1x2] is the reciprocal S-dict with the
    two independent coefficients (o1, o2) and (o1, o3), both [0.5**0.5],
    the binary64 number 0.7071067811865476. Every coefficient carries the
    same power, 0.5000000000000001: one half and one rounding error of
    [2**-53], not one half. *)
Theorem mmi1x2_balanced :
  let s := Float half_pow_half in
  mmi1x2 = [ (("o1", "o2"), s); (("o1", "o3"), s);
             (("o2", "o1"), s); (("o3", "o1"), s) ]
  ∧ half_pow_half = 0x1.6a09e667f3bcdp-1
  ∧ (∀ k v, dict_get mmi1x2 k = Some v →
       power v = 0x1.0000000000001p-1
       ∧ power v - 0.5 = 0x1p-53
       ∧ (power v =? 0.5) = false).
Proof.
  intros s. split; [apply mmi1x2_entries|]. split; [reflexivity|].
  intros k v ->%mmi1x2_coefficient. rewrite power_half_pow_half.
  repeat split; reflexivity.
Qed.

Lemma bend_euler_returns (wl length : float) s :
  straight wl length straight_default_neff = Ok s →
  ∃ t, s = [(("o1", "o2"), Complex t); (("o2", "o1"), Complex t)]
       ∧ bend_euler wl length
         = Ok [ (("o1", "o2"), times bend_factor (Complex t));
                (("o2", "o1"), times bend_factor (Complex t)) ].
Proof.
  intros Hs. unfold bend_euler. rewrite Hs.
  apply straight_inv in Hs as (_ & t & ->). by exists t.
Qed.

Lemma bend_euler_zero_wavelength (wl length : float) :
  (wl =? 0) = true → bend_euler wl length = Raise ZeroDivisionError.
Proof. intros Hwl. unfold bend_euler. by rewrite straight_zero_wavelength. Qed.

(** C5, as the code has it. For a wavelength that is not zero,
    [bend_euler(wl, length)] returns an S-dict with the keys of
    [straight(wl, length)] in the same order, each coefficient the product
    of 0.99 and the straight's; for a zero wavelength both raise
    [ZeroDivisionError]. *)
Theorem bend_euler_scales_straight (wl length : float) :
  ((wl =? 0) = true →
     straight wl length straight_default_neff = Raise ZeroDivisionError
     ∧ bend_euler wl length = Raise ZeroDivisionError)
  ∧ ((wl =? 0) = false →
     ∃ s s',
       straight wl length straight_default_neff = Ok s
       ∧ bend_euler wl length = Ok s'
       ∧ dict_keys s' = dict_keys s
       ∧ (∀ k v, dict_get s k = Some v →
            dict_get s' k = Some (times bend_factor v)
            ∧ ∃ z, v = Complex z
                   ∧ times bend_factor v
                     = Complex (bend_factor * z.1 - 0 * z.2,
                                bend_factor * z.2 + 0 * z.1))
       ∧ (∀ k, dict_get s k = None → dict_get s' k = None)).
Proof.
  split.
  - intros Hwl. split;
      [by apply straight_zero_wavelength|by apply bend_euler_zero_wavelength].
  - intros Hwl.
    destruct (straight_returns wl length straight_default_neff Hwl)
      as (phase & _ & Hs).
    destruct (bend_euler_returns wl length _ Hs) as (t & Ht & Hb).
    eexists _, _. split; [exact Hs|]. split; [exact Hb|].
    injection Ht as <-. split; [done|]. split.
    + intros k v Hg. simpl in Hg.
      repeat case_decide; simplify_eq; simpl;
        (split; [by repeat case_decide|by eexists]).
    + intros k Hg. simpl in *. repeat case_decide; simplify_eq; done.
Qed.

(** Re-assigning every key of a dictionary while walking over its items
    keeps the keys where they are. *)
Lemma dict_set_app_absent {K V} `{EqDecision K} (d1 d2 : list (K * V)) k v v' :
  k ∉ dict_keys d1 →
  dict_set (d1 ++ (k, v) :: d2) k v' = d1 ++ (k, v') :: d2.
Proof.
  unfold dict_keys. induction d1 as [|[k1 v1] d1 IH]; simpl.
  - intros _. by rewrite decide_True.
  - intros [Hne Hin]%not_elem_of_cons.
    rewrite decide_False by congruence. f_equal. by apply IH.
Qed.

Lemma foldl_dict_set_items {K V} `{EqDecision K} (g : V → V)
    (seen todo : list (K * V)) :
  NoDup (dict_keys (seen ++ todo)) →
  foldl (fun d kv => dict_set d kv.1 (g kv.2))
        (((fun kv => (kv.1, g kv.2)) <$> seen) ++ todo) todo
  = (fun kv => (kv.1, g kv.2)) <$> (seen ++ todo).
Proof.
  revert seen. induction todo as [|[k v] todo IH]; intros seen Hnd; simpl.
  - by rewrite !app_nil_r.
  - rewrite dict_set_app_absent.
    + replace (((fun kv => (kv.1, g kv.2)) <$> seen) ++ (k, g v) :: todo)
        with (((fun kv : K * V => (kv.1, g kv.2)) <$> (seen ++ [(k, v)])) ++ todo)
        by (rewrite fmap_app, <- app_assoc; done).
      rewrite IH by (by rewrite <- app_assoc).
      by rewrite <- app_assoc.
    + unfold dict_keys in *. rewrite fmap_app in Hnd.
      apply NoDup_app in Hnd as (_ & Hdisj & _).
      rewrite <- list_fmap_compose.
      intros Hin. apply (Hdisj k); [|left].
      apply list_elem_of_fmap in Hin as (kv & -> & Hin).
      apply list_elem_of_fmap. by exists kv.
Qed.

Lemma mmi1x2_keys :
  dict_keys mmi1x2 = [("o1", "o2"); ("o1", "o3"); ("o2", "o1"); ("o3", "o1")].
Proof. reflexivity. Qed.

Lemma mmi1x2_keys_NoDup : NoDup (dict_keys mmi1x2).
Proof. rewrite mmi1x2_keys. by apply (bool_decide_unpack _). Qed.

Lemma module_fmap (S : list (port_pair * num)) :
  NoDup (dict_keys S) →
  module S = (fun kv => (kv.1, Float (power kv.2))) <$> S.
Proof.
  intros Hnd. unfold module.
  apply (foldl_dict_set_items (fun v => Float (power v)) [] S Hnd).
Qed.

(** X1. [module] keeps the keys of [S] and their order and replaces every
    coefficient by its power. *)
Theorem module_powers (S : list (port_pair * num)) :
  NoDup (dict_keys S) →
  module S = (fun kv => (kv.1, Float (power kv.2))) <$> S
  ∧ dict_keys (module S) = dict_keys S
  ∧ (∀ k v, dict_get S k = Some v →
            dict_get (module S) k = Some (Float (power v))).
Proof.
  intros Hnd. pose proof (module_fmap S Hnd) as Hm.
  split; [done|]. rewrite Hm. split.
  - unfold dict_keys. rewrite <- list_fmap_compose. done.
  - intros k v. clear. induction S as [|[k' v'] S IH]; simpl; [done|].
    case_decide; [by intros [= ->]|done].
Qed.

(** X3. The three models are reciprocal and reflection-free: whatever they
    return gives the same coefficient for (p, q) and (q, p) and none for
    (p, p). *)
Theorem models_reciprocal (wl length neff : float) (p q : string) :
  (∀ s, straight wl length neff = Ok s →
        dict_get s (p, q) = dict_get s (q, p) ∧ dict_get s (p, p) = None)
  ∧ (dict_get mmi1x2 (p, q) = dict_get mmi1x2 (q, p)
     ∧ dict_get mmi1x2 (p, p) = None)
  ∧ (∀ s, bend_euler wl length = Ok s →
          dict_get s (p, q) = dict_get s (q, p) ∧ dict_get s (p, p) = None).
Proof.
  split; [|split].
  - intros s (_ & t & ->)%straight_inv. simpl.
    split; repeat case_decide; simplify_eq; done.
  - rewrite mmi1x2_entries. simpl.
    split; repeat case_decide; simplify_eq; done.
  - intros s Hs. destruct (wl =? 0) eqn:Hwl.
    + by rewrite bend_euler_zero_wavelength in Hs.
    + destruct (straight_returns wl length straight_default_neff Hwl)
        as (phase & _ & Hr).
      destruct (bend_euler_returns wl length _ Hr) as (t & _ & Hb).
      rewrite Hb in Hs. injection Hs as <-. simpl.
      split; repeat case_decide; simplify_eq; done.
Qed.

(** X4. [straight] and [bend_euler] raise [ZeroDivisionError] for a zero
    wavelength ([wl == 0.0], so also for -0.0) and return for every other
    one. *)
Theorem zero_wavelength_raises (wl length neff : float) :
  (straight wl length neff = Raise ZeroDivisionError ↔ (wl =? 0) = true)
  ∧ (bend_euler wl length = Raise ZeroDivisionError ↔ (wl =? 0) = true)
  ∧ (returns (straight wl length neff) ↔ (wl =? 0) = false)
  ∧ (returns (bend_euler wl length) ↔ (wl =? 0) = false).
Proof.
  destruct (wl =? 0) eqn:Hwl.
  - rewrite straight_zero_wavelength, bend_euler_zero_wavelength by done.
    repeat split; try done; by intros [? [=]].
  - destruct (straight_returns wl length neff Hwl) as (phase & _ & Hs).
    destruct (straight_returns wl length straight_default_neff Hwl)
      as (phase' & _ & Hs').
    destruct (bend_euler_returns wl length _ Hs') as (t & _ & Hb).
    rewrite Hs, Hb. repeat split; try done; by eexists.
Qed.
End sax_facts.

(** What is assumed of JAX holds of the stand-in, and the models can be
    run with it. *)
Section sax_examples.
Import Sax Floats.
Local Open Scope float_scope.

Lemma first_order_exp_infinite (x y : float) :
  is_finite x = true → is_infinity y = true →
  first_order_exp (x, y) = (nan, nan).
Proof.
  intros _ Hy. unfold first_order_exp, is_finite. cbn [fst snd].
  rewrite Hy, orb_true_r. simpl. by rewrite andb_false_r.
Qed.

#[local] Instance first_order : Jax := {|
  jnp_exp := first_order_exp;
  jnp_abs := textbook_abs;
  jnp_exp_infinite := first_order_exp_infinite;
  jnp_abs_nan := eq_refl |}.

(** Against C5 as worded: a wavelength of zero is a wavelength, and for
    it [bend_euler] returns nothing, whatever JAX computes. *)
Lemma bend_euler_no_sdict_at_zero :
  ¬ ∃ (jax : Jax) s', bend_euler 0 bend_euler_default_length = Ok s'.
Proof.
  intros (jax & s' & Hs).
  by rewrite bend_euler_zero_wavelength in Hs.
Qed.

(** Against C6 as worded: 5e-324 is a positive wavelength, and with the
    default length and index no coefficient of magnitude 1 comes back,
    whatever JAX computes at the finite arguments. *)
Lemma straight_not_lossless :
  ¬ ∃ (jax : Jax) t,
      straight tiny straight_default_length straight_default_neff
      = Ok [(("o1", "o2"), t); (("o2", "o1"), t)]
      ∧ magnitude t = 1.
Proof.
  intros (jax & t & Hs & Hm).
  rewrite straight_overflow in Hs. injection Hs as <-.
  rewrite magnitude_nan in Hm.
  apply (f_equal (fun x => x =? x)) in Hm. discriminate Hm.
Qed.

(** Against C7 as worded: the power of an output is not one half. *)
Lemma mmi1x2_not_exactly_half :
  ¬ ∃ jax : Jax, ∀ k v, dict_get mmi1x2 k = Some v → power v = 0.5.
Proof.
  intros (jax & Hhalf).
  specialize (Hhalf ("o1", "o2") (Float half_pow_half) eq_refl).
  rewrite power_half_pow_half in Hhalf.
  apply (f_equal (fun x => x =? 0.5)) in Hhalf. discriminate Hhalf.
Qed.

Lemma bend_euler_scales_straight_default :
  ∃ s s',
    straight bend_euler_default_wl bend_euler_default_length
      straight_default_neff = Ok s
    ∧ bend_euler bend_euler_default_wl bend_euler_default_length = Ok s'
    ∧ dict_keys s' = dict_keys s
    ∧ (∀ k v, dict_get s k = Some v →
              dict_get s' k = Some (times bend_factor v)).
Proof.
  destruct (proj2 (bend_euler_scales_straight bend_euler_default_wl
                     bend_euler_default_length) eq_refl)
    as (s & s' & Hs & Hb & Hk & Hv & _).
  exists s, s'. split; [exact Hs|]. split; [exact Hb|]. split; [exact Hk|].
  intros k v Hg. exact (proj1 (Hv k v Hg)).
Defined.

Lemma straight_transmission_default :
  ∃ phase,
    cdiv (cmul (cmul (cmul (0, 2) (of_float pi)) (of_float straight_default_neff))
               (of_float straight_default_length))
         (of_float straight_default_wl) = Ok phase
    ∧ straight straight_default_wl straight_default_length straight_default_neff
      = Ok [ (("o1", "o2"), Complex (jnp_exp phase));
             (("o2", "o1"), Complex (jnp_exp phase)) ].
Proof.
  exact (proj1 (proj2 (straight_transmission straight_default_wl
                         straight_default_length straight_default_neff))
           eq_refl).
Defined.

Lemma mmi1x2_balanced_outputs :
  ∃ v2 v3,
    dict_get mmi1x2 ("o1", "o2") = Some v2
    ∧ dict_get mmi1x2 ("o1", "o3") = Some v3
    ∧ power v2 = 0x1.0000000000001p-1
    ∧ power v3 = 0x1.0000000000001p-1.
Proof.
  exists (Float half_pow_half), (Float half_pow_half).
  split; [reflexivity|]. split; [reflexivity|].
  split;
    [exact (proj1 (proj2 (proj2 mmi1x2_balanced) ("o1", "o2") _ eq_refl))
    |exact (proj1 (proj2 (proj2 mmi1x2_balanced) ("o1", "o3") _ eq_refl))].
Defined.

Lemma module_powers_mmi1x2 :
  NoDup (dict_keys mmi1x2)
  ∧ module mmi1x2 = (fun kv => (kv.1, Float (power kv.2))) <$> mmi1x2
  ∧ dict_keys (module mmi1x2) = dict_keys mmi1x2.
Proof.
  split; [exact mmi1x2_keys_NoDup|].
  destruct (module_powers mmi1x2 mmi1x2_keys_NoDup) as (Hm & Hk & _).
  split; [exact Hm|exact Hk].
Defined.
End sax_examples.

(** ** define_edgeport *)
Section define_edgeport_facts.
Import Gmsh.
Local Open Scope R_scope.
Context {meshwell : Meshwell}.

Lemma returns_Raise {A} (e : exn) : ¬ returns (@Raise A e).
Proof. intros [a [=]]. Qed.

Lemma returns_Ok {A} (a : A) : returns (Ok a).
Proof. by exists a. Qed.

Lemma raises_Raise {A} (e : exn) : raises (@Raise A e).
Proof. by exists e. Qed.

(** What the constructor returns is what it was given. *)
Lemma GMSH_entity_new_Ok (e box : GMSH_entity.t) :
  GMSH_entity_new e = Ok box → box = e.
Proof.
  unfold GMSH_entity_new. destruct (GMSH_entity_rejects e); [done|].
  by intros [= <-].
Qed.



(** Once both z values are numbers, the outcome only depends on the
    orientation and on [width_pad]. *)
Lemma define_edgeport_not_aligned port port_dict model lo hi :
  port_dict !! "zmin" = Some (PNum lo) →
  port_dict !! "zmax" = Some (PNum hi) →
  ¬ axis_aligned (Port.orientation port) →
  define_edgeport port port_dict model = Raise UnboundLocalError.
Proof.
  intros Hlo Hhi Ho. unfold define_edgeport, get_or. rewrite Hlo, Hhi. simpl.
  destruct (Port.center port) as [cx cy].
  unfold axis_aligned in Ho.
  repeat (case_decide; [tauto|]). done.
Qed.

Lemma define_edgeport_z_not_numbers port port_dict model :
  (∀ lo, port_dict !! "zmin" ≠ Some (PNum lo))
  ∨ (∀ hi, port_dict !! "zmax" ≠ Some (PNum hi)) →
  define_edgeport port port_dict model = Raise TypeError.
Proof.
  intros Hz. unfold define_edgeport, get_or.
  destruct (port_dict !! "zmin") as [[| lo | |]|], (port_dict !! "zmax") as [[| hi | |]|];
    simpl; try done.
  destruct Hz as [Hz|Hz]; [by destruct (Hz lo) | by destruct (Hz hi)].
Qed.


(** C9. [define_edgeport] returns only for an axis-aligned orientation and
    a dictionary holding numbers under both zmin and zmax. With any other
    orientation [dx] is read unassigned; with zmin or zmax missing the
    subtraction fails first, and no default is taken from the port. *)
Theorem define_edgeport_precondition (port : Port.t)
    (port_dict : gmap string pyval) (model : Model.t) :
  (returns (define_edgeport port port_dict model) →
     axis_aligned (Port.orientation port)
     ∧ ∃ lo hi, port_dict !! "zmin" = Some (PNum lo)
                ∧ port_dict !! "zmax" = Some (PNum hi))
  ∧ (¬ axis_aligned (Port.orientation port) →
       raises (define_edgeport port port_dict model)
       ∧ ∀ lo hi, port_dict !! "zmin" = Some (PNum lo) →
                  port_dict !! "zmax" = Some (PNum hi) →
                  define_edgeport port port_dict model = Raise UnboundLocalError)
  ∧ (port_dict !! "zmin" = None ∨ port_dict !! "zmax" = None →
       define_edgeport port port_dict model = Raise TypeError).
Proof.
  assert ((∃ lo hi, port_dict !! "zmin" = Some (PNum lo)
                    ∧ port_dict !! "zmax" = Some (PNum hi))
          ∨ define_edgeport port port_dict model = Raise TypeError) as Hz.
  { destruct (port_dict !! "zmin") as [[| lo | |]|] eqn:Hlo;
      try (right; apply define_edgeport_z_not_numbers; left; intros ?; congruence).
    destruct (port_dict !! "zmax") as [[| hi | |]|] eqn:Hhi;
      try (right; apply define_edgeport_z_not_numbers; right; intros ?; congruence).
    left. by exists lo, hi. }
  split; [|split].
  - intros Hret. destruct Hz as [(lo & hi & Hlo & Hhi)|Herr].
    + split; [|by exists lo, hi].
      destruct (decide (Port.orientation port = 0)) as [?|H0]; [by left|].
      destruct (decide (Port.orientation port = 90)) as [?|H90]; [by right; left|].
      destruct (decide (Port.orientation port = 180)) as [?|H180];
        [by right; right; left|].
      destruct (decide (Port.orientation port = 270)) as [?|H270];
        [by right; right; right|].
      rewrite (define_edgeport_not_aligned _ _ _ lo hi) in Hret; try done.
      * by apply returns_Raise in Hret.
      * unfold axis_aligned. tauto.
    + rewrite Herr in Hret. by apply returns_Raise in Hret.
  - intros Ho. destruct Hz as [(lo & hi & Hlo & Hhi)|Herr].
    + split.
      * rewrite (define_edgeport_not_aligned _ _ _ lo hi) by done.
        apply raises_Raise.
      * intros lo' hi' Hlo' Hhi'. by apply (define_edgeport_not_aligned _ _ _ lo' hi').
    + split; [rewrite Herr; apply raises_Raise|].
      intros lo hi Hlo Hhi.
      by apply (define_edgeport_not_aligned _ _ _ lo hi).
  - intros Hnone. apply define_edgeport_z_not_numbers.
    destruct Hnone as [Hn|Hn]; [left|right]; intros ?; congruence.
Qed.

End define_edgeport_facts.

Section define_edgeport_examples.
Import Gmsh.
Local Open Scope R_scope.
#[local] Existing Instances Script.checks.

Lemma script_width_pad : width_pad_of Script.o1_dict = PNum 1.
Proof.
  unfold width_pad_of, get_or, py_or, Script.o1_dict. simplify_map_eq. simpl.
  rewrite bool_decide_true by lra. done.
Qed.



(** The script's port dictionary without its z range: the port's layer is
    never consulted. *)
Example define_edgeport_no_default_z :
  define_edgeport Script.o1 (delete "zmin" Script.o1_dict) Script.model
  = Raise TypeError.
Proof.
  apply define_edgeport_z_not_numbers. left. intros lo.
  unfold Script.o1_dict. by simplify_map_eq.
Qed.

(** An orientation of 45 degrees leaves [dx] unassigned. *)
Example define_edgeport_diagonal :
  define_edgeport (Port.Make "o1" (0, 0) 0.5 45) Script.o1_dict Script.model
  = Raise UnboundLocalError.
Proof.
  apply (define_edgeport_not_aligned _ _ _ (-1) 1); [done|done|].
  unfold axis_aligned. simpl. lra.
Qed.

End define_edgeport_examples.

(** ** define_prisms *)
Section define_prisms_facts.
Import Gmsh.
Local Open Scope R_scope.
Context {shapely : Shapely} {helpers : Helpers} {meshwell : Meshwell}.
Implicit Types (lpd : list (string * geom)) (bls : LayerStack.t)
  (phys : gmap string string) (mb : gmap string bool) (model : Model.t)
  (res : option (list (string * loc))) (sf : R).

Lemma zip_map_map {A B A' B'} (f : A → A') (g : B → B') (l : list A) (k : list B) :
  zip (map f l) (map g k) = map (fun p => (f p.1, g p.2)) (zip l k).
Proof.
  revert k. induction l as [|a l IH]; intros [|b k]; simpl; try done.
  by rewrite IH.
Qed.

Lemma buffer_dict_of_pairs layer_ sf (z_to_bias : list R * list R) :
  buffer_dict_of layer_ sf z_to_bias
  = dict_of_pairs (map (fun p => (z_level layer_ sf p.1, p.2 * sf))
                       (zip z_to_bias.1 z_to_bias.2)).
Proof. unfold buffer_dict_of. simpl. by rewrite zip_map_map. Qed.

Lemma buffer_dict_last_pair layer_ sf (z_to_bias : list R * list R) :
  maps_last_pair (buffer_dict_of layer_ sf z_to_bias) layer_ sf z_to_bias.
Proof.
  rewrite buffer_dict_of_pairs. unfold maps_last_pair. cbv zeta. split.
  - intros z v Hg. apply dict_get_of_pairs_Some in Hg.
    apply list_elem_of_fmap in Hg as ([c b] & Heq & Hin).
    simpl in Heq. injection Heq as -> ->. by exists c, b.
  - intros i c b Hi Hlater.
    rewrite <- (take_drop_middle (zip z_to_bias.1 z_to_bias.2) i (c, b) Hi) at 1.
    rewrite fmap_app, fmap_cons. simpl.
    apply dict_get_of_pairs_last. unfold dict_keys.
    rewrite <- list_fmap_compose.
    intros ([c' b'] & Heq & Hin)%list_elem_of_fmap. simpl in Heq.
    apply list_elem_of_lookup in Hin as [j Hj]. rewrite lookup_drop in Hj.
    apply (Hlater (S i + j)%nat c' b'); [lia|done|done].
Qed.

Lemma dict_get_key {V} (d : list (string * V)) n :
  n ∈ dict_keys d → is_Some (dict_get d n).
Proof.
  intros Hin. destruct (dict_get d n) eqn:Hg; [done|].
  by apply dict_get_None in Hg.
Qed.

Lemma wants_prism_false_empty lpd bls n polys :
  dict_get lpd n = Some polys → is_empty polys = true →
  wants_prism lpd bls n = false.
Proof.
  intros Hg He. unfold wants_prism. rewrite Hg.
  destruct (dict_get (LayerStack.layers bls) n); [|done]. by rewrite He.
Qed.

Lemma wants_prism_false_no_bias lpd bls n polys layer_ :
  dict_get lpd n = Some polys →
  dict_get (LayerStack.layers bls) n = Some layer_ →
  LayerLevel.z_to_bias layer_ = None →
  wants_prism lpd bls n = false.
Proof.
  intros Hg Hl Hz. unfold wants_prism. rewrite Hg, Hl, Hz.
  rewrite bool_decide_false by (by intros [? [=]]).
  by rewrite andb_false_r.
Qed.

Lemma wants_prism_true lpd bls n polys layer_ z_to_bias :
  dict_get lpd n = Some polys →
  dict_get (LayerStack.layers bls) n = Some layer_ →
  is_empty polys = false →
  LayerLevel.z_to_bias layer_ = Some z_to_bias →
  wants_prism lpd bls n = true.
Proof.
  intros Hg Hl He Hz. unfold wants_prism. rewrite Hg, Hl, He, Hz.
  by rewrite bool_decide_true.
Qed.

(** One pass of the loop body. *)
Lemma define_prisms_loop_cons lpd bls phys mb model res sf n rest acc polys layer_ :
  dict_get lpd n = Some polys →
  dict_get (LayerStack.layers bls) n = Some layer_ →
  define_prisms_loop lpd bls phys mb model res sf (n :: rest) acc
  = if is_empty polys then
      define_prisms_loop lpd bls phys mb model res sf rest acc
    else match LayerLevel.z_to_bias layer_ with
         | None => define_prisms_loop lpd bls phys mb model res sf rest acc
         | Some z_to_bias =>
             define_prisms_loop lpd bls phys mb model res sf rest
               (acc ++ [Prism.Make _
                  (scale polys sf sf (0, 0, 0))
                  (buffer_dict_of layer_ sf z_to_bias)
                  model
                  (resolutions_get res n)
                  (LayerLevel.mesh_order layer_)
                  (default n (phys !! n))
                  (default true (mb !! n))])
         end.
Proof.
  intros Hg Hl. simpl. unfold dict_subscript, layer_mesh_order.
  rewrite Hg, Hl. simpl. destruct (is_empty polys); [done|].
  simpl. by destruct (LayerLevel.z_to_bias layer_).
Qed.

Lemma define_prisms_loop_missing lpd bls phys mb model res sf n rest acc :
  dict_get lpd n = None →
  define_prisms_loop lpd bls phys mb model res sf (n :: rest) acc
  = Raise KeyError.
Proof. intros Hg. simpl. unfold dict_subscript. by rewrite Hg. Qed.

Lemma define_prisms_loop_spec lpd bls phys mb model res sf names acc :
  (∀ n, n ∈ names → is_Some (dict_get (LayerStack.layers bls) n)) →
  (∀ n, n ∈ names → is_Some (dict_get lpd n)) →
  ∃ new,
    define_prisms_loop lpd bls phys mb model res sf names acc = Ok (acc ++ new)
    ∧ Forall2 (prism_of_layer lpd bls phys mb model res sf)
        (filter (fun n => wants_prism lpd bls n) names) new.
Proof.
  revert acc. induction names as [|n rest IH]; intros acc Hl Hg.
  - exists []. split; [by rewrite app_nil_r|constructor].
  - destruct (Hg n) as [polys Hpolys]; [by left|].
    destruct (Hl n) as [layer_ Hlayer]; [by left|].
    assert (∀ m, m ∈ rest → is_Some (dict_get (LayerStack.layers bls) m))
      as Hl' by (intros; apply Hl; by right).
    assert (∀ m, m ∈ rest → is_Some (dict_get lpd m))
      as Hg' by (intros; apply Hg; by right).
    rewrite (define_prisms_loop_cons _ _ _ _ _ _ _ _ _ _ polys layer_) by done.
    destruct (is_empty polys) eqn:He.
    { rewrite filter_cons_False; [by apply IH|].
      rewrite (wants_prism_false_empty _ _ _ polys) by done. by intros []. }
    destruct (LayerLevel.z_to_bias layer_) as [z_to_bias|] eqn:Hz.
    2:{ rewrite filter_cons_False; [by apply IH|].
        rewrite (wants_prism_false_no_bias _ _ _ polys layer_) by done.
        by intros []. }
    rewrite filter_cons_True
      by (rewrite (wants_prism_true _ _ _ polys layer_ z_to_bias) by done;
          exact I).
    destruct (IH (acc ++ [Prism.Make _ (scale polys sf sf (0, 0, 0))
                  (buffer_dict_of layer_ sf z_to_bias) model
                  (resolutions_get res n) (LayerLevel.mesh_order layer_)
                  (default n (phys !! n)) (default true (mb !! n))]) Hl' Hg')
      as (new & Hrun & Hall).
    eexists (_ :: new). split.
    + rewrite Hrun. by rewrite <- app_assoc.
    + constructor; [|done].
      exists polys, layer_, z_to_bias. simpl.
      repeat split; try done; apply buffer_dict_last_pair.
Qed.

(** A layer name without polygons stops the run. *)
Lemma define_prisms_loop_returns lpd bls phys mb model res sf names acc out :
  (∀ n, n ∈ names → is_Some (dict_get (LayerStack.layers bls) n)) →
  define_prisms_loop lpd bls phys mb model res sf names acc = Ok out →
  ∀ n, n ∈ names → is_Some (dict_get lpd n).
Proof.
  revert acc. induction names as [|n rest IH]; intros acc Hl Hrun m Hm.
  - by apply elem_of_nil in Hm.
  - destruct (dict_get lpd n) as [polys|] eqn:Hpolys.
    2:{ by rewrite define_prisms_loop_missing in Hrun. }
    apply elem_of_cons in Hm as [->|Hm]; [by rewrite Hpolys|].
    destruct (Hl n) as [layer_ Hlayer]; [by left|].
    rewrite (define_prisms_loop_cons _ _ _ _ _ _ _ _ _ _ polys layer_) in Hrun by done.
    assert (∀ m, m ∈ rest → is_Some (dict_get (LayerStack.layers bls) m))
      as Hl' by (intros; apply Hl; by right).
    destruct (is_empty polys); [by eapply IH|].
    destruct (LayerLevel.z_to_bias layer_); by eapply IH.
Qed.

Lemma define_prisms_run lpd ls phys mb model res sf :
  (∀ n, n ∈ dict_keys (LayerStack.layers (bufferize ls)) →
        is_Some (dict_get lpd n)) →
  ∃ prisms,
    define_prisms lpd ls phys mb model res sf = Ok prisms
    ∧ Forall2 (prism_of_layer lpd (bufferize ls) phys mb model res sf)
        (filter (fun n => wants_prism lpd (bufferize ls) n)
                (dict_keys (LayerStack.layers (bufferize ls)))) prisms.
Proof.
  intros Hg. unfold define_prisms.
  destruct (define_prisms_loop_spec lpd (bufferize ls) phys mb model res sf
              (dict_keys (LayerStack.layers (bufferize ls))) [])
    as (new & Hrun & Hall); [apply dict_get_key|done|].
  by exists new.
Qed.

Lemma define_prisms_inv lpd ls phys mb model res sf prisms :
  define_prisms lpd ls phys mb model res sf = Ok prisms →
  (∀ n, n ∈ dict_keys (LayerStack.layers (bufferize ls)) →
        is_Some (dict_get lpd n))
  ∧ Forall2 (prism_of_layer lpd (bufferize ls) phys mb model res sf)
      (filter (fun n => wants_prism lpd (bufferize ls) n)
              (dict_keys (LayerStack.layers (bufferize ls)))) prisms.
Proof.
  intros Hrun.
  assert (∀ n, n ∈ dict_keys (LayerStack.layers (bufferize ls)) →
               is_Some (dict_get lpd n)) as Hg.
  { eapply define_prisms_loop_returns; [apply dict_get_key|exact Hrun]. }
  split; [done|].
  destruct (define_prisms_run lpd ls phys mb model res sf Hg)
    as (prisms' & Hrun' & Hall).
  rewrite Hrun in Hrun'. by injection Hrun' as ->.
Qed.

Lemma define_prisms_KeyError lpd ls phys mb model res sf n :
  n ∈ dict_keys (LayerStack.layers (bufferize ls)) →
  dict_get lpd n = None →
  ∃ e, define_prisms lpd ls phys mb model res sf = Raise e.
Proof.
  intros Hin Hnone.
  destruct (define_prisms lpd ls phys mb model res sf) as [prisms|e] eqn:Hrun;
    [|by exists e].
  apply define_prisms_inv in Hrun as [Hg _].
  destruct (Hg n Hin) as [? ?]. congruence.
Qed.

(** With pairwise distinct z-levels no pair is overwritten. *)
Lemma maps_last_pair_distinct buffers layer_ sf (z_to_bias : list R * list R) :
  NoDup (z_level layer_ sf <$> (zip z_to_bias.1 z_to_bias.2).*1) →
  maps_last_pair buffers layer_ sf z_to_bias →
  maps_every_pair buffers layer_ sf z_to_bias.
Proof.
  intros Hnd [_ Hlast] c b Hin.
  apply list_elem_of_lookup in Hin as [i Hi].
  apply (Hlast i c b Hi). intros j c' b' Hij Hj Heq.
  assert (i = j); [|lia].
  eapply NoDup_lookup; [exact Hnd| |].
  - rewrite !list_lookup_fmap, Hi. reflexivity.
  - rewrite !list_lookup_fmap, Hj. simpl. by rewrite Heq.
Qed.

(** C1, as the code has it. When every layer of the bufferized stack has
    an entry in [layer_polygons_dict], [define_prisms] returns one prism
    for each layer whose polygons are not empty and whose [z_to_bias] is
    not [None], in the order of the stack, and none for the others. The
    prism holds the polygons scaled by [scale_factor] about the origin and
    a buffer dictionary whose entries all come from the pairs and in which
    the last pair of each z-level is kept; every pair is found when the
    z-levels are pairwise distinct. *)
Theorem define_prisms_layers lpd ls phys mb model res sf :
  (∀ n, n ∈ dict_keys (LayerStack.layers (bufferize ls)) →
        is_Some (dict_get lpd n)) →
  ∃ prisms,
    define_prisms lpd ls phys mb model res sf = Ok prisms
    ∧ Forall2 (prism_of_layer lpd (bufferize ls) phys mb model res sf)
        (filter (fun n => wants_prism lpd (bufferize ls) n)
                (dict_keys (LayerStack.layers (bufferize ls)))) prisms
    ∧ (∀ n p layer_ z_to_bias,
         p ∈ prisms →
         prism_of_layer lpd (bufferize ls) phys mb model res sf n p →
         dict_get (LayerStack.layers (bufferize ls)) n = Some layer_ →
         LayerLevel.z_to_bias layer_ = Some z_to_bias →
         maps_last_pair (Prism.buffers p) layer_ sf z_to_bias
         ∧ (NoDup (z_level layer_ sf <$> (zip z_to_bias.1 z_to_bias.2).*1) →
            maps_every_pair (Prism.buffers p) layer_ sf z_to_bias)).
Proof.
  intros Hg. destruct (define_prisms_run lpd ls phys mb model res sf Hg)
    as (prisms & Hrun & Hall).
  exists prisms. split; [done|]. split; [done|].
  intros n p layer_ z_to_bias _ (polys & layer' & ztb' & _ & Hl & _ & Hz & _ & Hb & _)
    Hlayer Hbias.
  rewrite Hlayer in Hl. injection Hl as <-.
  rewrite Hbias in Hz. injection Hz as <-.
  split; [done|]. intros Hnd. by apply maps_last_pair_distinct.
Qed.

End define_prisms_facts.

Section define_prisms_examples.
Import Gmsh Script.
Local Open Scope R_scope.
#[local] Existing Instances rings layouts checks.

Lemma stepped_levels_differ (c : R) :
  c ≠ 0.5 → z_level stepped_core 1 c ≠ z_level stepped_core 1 0.5.
Proof. unfold z_level, stepped_core. simpl. lra. Qed.

(** The claim as worded fails on a side wall with a vertical step: the
    pair (0.5, 0) shares its z-level with (0.5, 1), which replaces it. *)
Lemma define_prisms_overwrites_pair :
  let z_to_bias := ([0; 0.5; 0.5; 1], [0; 0; 1; 1]) in
  let p := Prism.Make _ (scale waveguide 1 1 (0, 0, 0))
             (buffer_dict_of stepped_core 1 z_to_bias) model None 1 "core" true in
  define_prisms [("core", waveguide)] stepped_stack ∅ ∅ model None 1 = Ok [p]
  ∧ LayerLevel.z_to_bias stepped_core = Some z_to_bias
  ∧ (0.5, 0) ∈ zip z_to_bias.1 z_to_bias.2
  ∧ dict_get (Prism.buffers p) (z_level stepped_core 1 0.5) = Some (1 * 1)
  ∧ ¬ maps_every_pair (Prism.buffers p) stepped_core 1 z_to_bias.
Proof.
  intros z_to_bias p.
  assert ((0.5, 0) ∈ zip z_to_bias.1 z_to_bias.2) as Hin
    by apply list_elem_of_further, list_elem_of_here.
  assert (dict_get (Prism.buffers p) (z_level stepped_core 1 0.5) = Some (1 * 1))
    as Hlast.
  { destruct (buffer_dict_last_pair stepped_core 1 z_to_bias) as [_ Hlast].
    apply (Hlast 2%nat 0.5 1); [done|].
    intros [|[|[|[|j]]]] c' b' Hj; try lia; simpl; intros [= <- <-].
    apply stepped_levels_differ. lra. }
  split; [reflexivity|]. split; [reflexivity|]. split; [exact Hin|].
  split; [exact Hlast|].
  intros Hall. specialize (Hall 0.5 0 Hin). rewrite Hlast in Hall.
  injection Hall. lra.
Qed.

Lemma script_layers_have_polygons :
  ∀ n, n ∈ dict_keys (LayerStack.layers (bufferize filtered_layer_stack)) →
       is_Some (dict_get (layout_polygons c) n).
Proof.
  intros n Hn. simpl in Hn.
  repeat (apply elem_of_cons in Hn as [->|Hn]; [by eexists|]).
  by apply elem_of_nil in Hn.
Qed.

(** The script's three layers: one prism each, in the order box, clad,
    core. *)
Lemma define_prisms_layers_script :
  ∃ prisms,
    define_prisms (layout_polygons c) filtered_layer_stack ∅ ∅ model None 1
    = Ok prisms
    ∧ Forall2 (prism_of_layer (layout_polygons c) (bufferize filtered_layer_stack)
                 ∅ ∅ model None 1)
        ["box"; "clad"; "core"] prisms.
Proof.
  destruct (define_prisms_layers (helpers := layouts) (layout_polygons c) filtered_layer_stack
              ∅ ∅ model None 1 script_layers_have_polygons)
    as (prisms & Hrun & Hall & _).
  exists prisms. split; [exact Hrun|exact Hall].
Defined.

End define_prisms_examples.

(** ** The background layer *)
Section background_facts.
Import Gmsh.
Local Open Scope R_scope.
Context {shapely : Shapely} {helpers : Helpers} {meshwell : Meshwell}.

Lemma foldl_Rmin_spec (zs : list R) (z : R) :
  foldl Rmin z zs ∈ z :: zs ∧ ∀ z', z' ∈ z :: zs → foldl Rmin z zs <= z'.
Proof.
  revert z. induction zs as [|x zs IH]; intros z; simpl.
  - split; [apply list_elem_of_here|].
    intros z' [->|Hin%elem_of_nil]%elem_of_cons; [lra|done].
  - destruct (IH (Rmin z x)) as [Hin Hle]. split.
    + apply elem_of_cons in Hin as [Heq|Hin]; [|by do 2 right].
      rewrite Heq. apply Rmin_case; [left|right; left].
    + intros z' Hz'.
      assert (foldl Rmin (Rmin z x) zs <= Rmin z x) as Hm by (apply Hle; left).
      pose proof (Rmin_l z x). pose proof (Rmin_r z x).
      apply elem_of_cons in Hz' as [->|Hz']; [lra|].
      apply elem_of_cons in Hz' as [->|Hz']; [lra|].
      apply Hle. by right.
Qed.

Lemma foldl_Rmax_spec (zs : list R) (z : R) :
  foldl Rmax z zs ∈ z :: zs ∧ ∀ z', z' ∈ z :: zs → z' <= foldl Rmax z zs.
Proof.
  revert z. induction zs as [|x zs IH]; intros z; simpl.
  - split; [apply list_elem_of_here|].
    intros z' [->|Hin%elem_of_nil]%elem_of_cons; [lra|done].
  - destruct (IH (Rmax z x)) as [Hin Hle]. split.
    + apply elem_of_cons in Hin as [Heq|Hin]; [|by do 2 right].
      rewrite Heq. apply Rmax_case; [left|right; left].
    + intros z' Hz'.
      assert (Rmax z x <= foldl Rmax (Rmax z x) zs) as Hm by (apply Hle; left).
      pose proof (Rmax_l z x). pose proof (Rmax_r z x).
      apply elem_of_cons in Hz' as [->|Hz']; [lra|].
      apply elem_of_cons in Hz' as [->|Hz']; [lra|].
      apply Hle. by right.
Qed.

(** [np.min] and [np.max] return the least and the greatest element. *)
Lemma np_min_spec (zs : list R) :
  zs ≠ [] → ∃ m, np_min zs = Ok m ∧ m ∈ zs ∧ ∀ z, z ∈ zs → m <= z.
Proof.
  destruct zs as [|z zs]; [done|]. intros _. eexists. split; [done|].
  apply foldl_Rmin_spec.
Qed.

Lemma np_max_spec (zs : list R) :
  zs ≠ [] → ∃ m, np_max zs = Ok m ∧ m ∈ zs ∧ ∀ z, z ∈ zs → z <= m.
Proof.
  destruct zs as [|z zs]; [done|]. intros _. eexists. split; [done|].
  apply foldl_Rmax_spec.
Qed.


Lemma add_background_tagged a lpd ls tag zmin zmax :
  background_tag a = Some tag →
  np_min (list_unique_layer_stack_z ls) = Ok zmin →
  np_max (list_unique_layer_stack_z ls) = Ok zmax →
  add_background a lpd ls
  = Ok (dict_set lpd tag
          (scale (Polygon (background_corners
                             (bounds (unary_union (dict_values lpd)))
                             (background_padding a)))
             (global_scaling_premesh a) (global_scaling_premesh a) (0, 0, 0)),
        LayerStack.Make
          (dict_set (LayerStack.layers ls) tag
             (background_level tag zmin zmax (background_padding a)
                (background_mesh_order a) (global_scaling_premesh a)))).
Proof.
  intros Ht Hmin Hmax. unfold add_background. by rewrite Ht, Hmin, Hmax.
Qed.

Lemma add_background_no_levels a lpd ls tag :
  background_tag a = Some tag →
  list_unique_layer_stack_z ls = [] →
  add_background a lpd ls = Raise ValueError.
Proof. intros Ht Hzs. unfold add_background. by rewrite Ht, Hzs. Qed.



End background_facts.

Section background_examples.
Import Gmsh Script.
Local Open Scope R_scope.
#[local] Existing Instances rings layouts checks.

Lemma script_z_values :
  list_unique_layer_stack_z filtered_layer_stack
  = [-3; 0; 0; -3 + 3; 0 + 3; 0 + 0.22].
Proof. reflexivity. Qed.


(** A name that is new is appended after the existing layers. *)
Example add_background_appends :
  ∃ lpd' ls',
    add_background (background_args "background" 1) (layout_polygons c)
      filtered_layer_stack = Ok (lpd', ls')
    ∧ dict_keys lpd' = ["box"; "clad"; "core"; "background"]
    ∧ dict_keys (LayerStack.layers ls') = ["box"; "clad"; "core"; "background"]
    ∧ dict_get (LayerStack.layers ls') "core"
      = dict_get (LayerStack.layers filtered_layer_stack) "core".
Proof.
  destruct (np_min_spec (list_unique_layer_stack_z filtered_layer_stack))
    as (zmin & Hmin & _); [by rewrite script_z_values|].
  destruct (np_max_spec (list_unique_layer_stack_z filtered_layer_stack))
    as (zmax & Hmax & _); [by rewrite script_z_values|].
  eexists _, _.
  split; [by apply (add_background_tagged _ _ _ "background" zmin zmax)|].
  repeat split; reflexivity.
Qed.
End background_examples.

(** ** Mesh order *)
Section mesh_order_facts.
Import Gmsh.
Local Open Scope R_scope.
Context {shapely : Shapely} {helpers : Helpers} {meshwell : Meshwell}.

Lemma define_edgeport_unmeshed port port_dict model box :
  define_edgeport port port_dict model = Ok box →
  GMSH_entity.mesh_order box = 0%Z ∧ GMSH_entity.mesh_bool box = false.
Proof.
  unfold define_edgeport.
  destruct (py_sub _ _) as [dz|]; simpl; [|done].
  destruct (Port.center port) as [cx cy].
  repeat case_decide;
    try (destruct (padded_width port (width_pad_of port_dict)); simpl);
    try done; intros ->%GMSH_entity_new_Ok; done.
Qed.

Lemma add_edgeports_spec ports edge_ports model (acc out : list entity) :
  add_edgeports ports edge_ports model acc = Ok out →
  ∃ boxes,
    out = acc ++ (EEntity <$> boxes)
    ∧ Forall (fun b => GMSH_entity.mesh_order b = 0%Z
                       ∧ GMSH_entity.mesh_bool b = false) boxes.
Proof.
  revert acc. induction edge_ports as [|[portname d] rest IH]; intros acc; simpl.
  - intros [= <-]. exists []. by rewrite app_nil_r.
  - destruct (dict_subscript ports portname) as [port|]; simpl; [|done].
    destruct (define_edgeport port d model) as [box|] eqn:Hbox; simpl; [|done].
    intros (boxes & -> & Hall)%IH. exists (box :: boxes). split.
    + by rewrite <- app_assoc.
    + constructor; [by eapply define_edgeport_unmeshed|done].
Qed.

Lemma heap_bind_Ok {A B} (m : heap_op A) (k : A → heap_op B) h b h' :
  (m ≫= k) h = (Ok b, h') →
  ∃ a h1, m h = (Ok a, h1) ∧ k a h1 = (Ok b, h').
Proof.
  unfold mbind, heap_op_bind. destruct (m h) as [[a|e] h1]; [|done].
  intros Hk. by exists a, h1.
Qed.

Lemma lift_Ok {A} (r : result A) h a h' :
  lift r h = (Ok a, h') → r = Ok a ∧ h' = h.
Proof. unfold lift. by intros [= -> ->]. Qed.

Lemma xyz_mesh_boxes a h call h' :
  xyz_mesh a h = (Ok call, h') →
  ∀ b, EEntity b ∈ entities_list call →
       GMSH_entity.mesh_order b = 0%Z ∧ GMSH_entity.mesh_bool b = false.
Proof.
  unfold xyz_mesh. intros Hrun.
  apply heap_bind_Ok in Hrun as ([lpd ls] & h1 & _ & Hrun).
  apply heap_bind_Ok in Hrun as (entries & h2 & _ & Hrun).
  apply heap_bind_Ok in Hrun as (prisms & h3 & _ & Hrun).
  apply heap_bind_Ok in Hrun as (ents & h4 & Hports & Hrun).
  apply heap_bind_Ok in Hrun as (l & h5 & _ & Hrun).
  injection Hrun as <- <-. simpl.
  assert (∃ boxes, ents = (EPrism <$> prisms) ++ (EEntity <$> boxes)
            ∧ Forall (fun b => GMSH_entity.mesh_order b = 0%Z
                               ∧ GMSH_entity.mesh_bool b = false) boxes)
    as (boxes & -> & Hall).
  { destruct (edge_ports a) as [eps|].
    - apply lift_Ok in Hports as [Hports _]. by apply add_edgeports_spec in Hports.
    - injection Hports as <- _. exists []. by rewrite app_nil_r. }
  intros b [Hin|Hin]%elem_of_app.
  - apply list_elem_of_fmap in Hin as (p & [=] & _).
  - apply list_elem_of_fmap in Hin as (b' & [= ->] & Hin).
    by apply (proj1 (Forall_forall _ _) Hall).
Qed.

(** C3. Every prism carries the mesh order of its layer in the bufferized
    stack; every edge-port box has mesh order 0 and is not meshed, also
    among the entities [xyz_mesh] hands to the mesher; the background
    level gets [background_mesh_order], whose default is 2^63 - 1. *)
Theorem mesh_order_precedence :
  (∀ lpd ls phys mb model res sf prisms,
     define_prisms lpd ls phys mb model res sf = Ok prisms →
     Forall2 (fun n p => ∃ layer_,
                dict_get (LayerStack.layers (bufferize ls)) n = Some layer_
                ∧ Prism.mesh_order p = LayerLevel.mesh_order layer_)
       (filter (fun n => wants_prism lpd (bufferize ls) n)
               (dict_keys (LayerStack.layers (bufferize ls)))) prisms)
  ∧ (∀ port port_dict model box,
       define_edgeport port port_dict model = Ok box →
       GMSH_entity.mesh_order box = 0%Z ∧ GMSH_entity.mesh_bool box = false)
  ∧ (∀ a h call h',
       xyz_mesh a h = (Ok call, h') →
       ∀ b, EEntity b ∈ entities_list call →
            GMSH_entity.mesh_order b = 0%Z ∧ GMSH_entity.mesh_bool b = false)
  ∧ (∀ a lpd ls tag lpd' ls',
       background_tag a = Some tag →
       add_background a lpd ls = Ok (lpd', ls') →
       ∃ level, dict_get (LayerStack.layers ls') tag = Some level
                ∧ LayerLevel.mesh_order level = background_mesh_order a)
  ∧ (∀ component ls phys mb,
       background_mesh_order (default_args component ls phys mb)
       = 9223372036854775807%Z).
Proof.
  split; [|split; [|split; [|split]]].
  - intros lpd ls phys mb model res sf prisms Hrun.
    apply define_prisms_inv in Hrun as [_ Hall].
    eapply Forall2_impl; [exact Hall|].
    intros n p (polys & layer_ & ztb & _ & Hl & _ & _ & _ & _ & _ & _ & Ho & _).
    by exists layer_.
  - apply define_edgeport_unmeshed.
  - apply xyz_mesh_boxes.
  - intros a lpd ls tag lpd' ls' Ht Hrun.
    destruct (list_unique_layer_stack_z ls) as [|z zs] eqn:Hzs.
    { by rewrite (add_background_no_levels a lpd ls tag) in Hrun. }
    rewrite (add_background_tagged a lpd ls tag (foldl Rmin z zs) (foldl Rmax z zs))
      in Hrun; [|done|by rewrite Hzs|by rewrite Hzs].
    injection Hrun as <- <-. eexists. split; [apply dict_get_set_eq|done].
  - done.
Qed.
End mesh_order_facts.

(** ** The caller's resolutions *)
Section store_facts.
Import Gmsh.
Local Open Scope R_scope.
Implicit Types (h : gmap loc obj) (l : loc).


Lemma alloc_frame (h0 : gmap loc obj) h o :
  h0 ⊆ h →
  fresh_for h0 (fresh (dom h)) ∧ h0 ⊆ <[fresh (dom h) := o]> h.
Proof.
  intros Hsub.
  assert (h !! fresh (dom h) = None) as Hnew
    by (apply not_elem_of_dom, is_fresh).
  assert (fresh_for h0 (fresh (dom h))) as Hnew0.
  { unfold fresh_for. destruct (h0 !! fresh (dom h)) as [o'|] eqn:Ho; [|done].
    eapply lookup_weaken in Ho; [|exact Hsub]. congruence. }
  split; [done|]. by apply insert_subseteq_r.
Qed.

Lemma write_frame (h0 : gmap loc obj) h l o :
  h0 ⊆ h → fresh_for h0 l → h0 ⊆ (write l o h).2.
Proof. intros Hsub Hl. simpl. by apply insert_subseteq_r. Qed.

Lemma dict_values_set_Forall {V} (P : V → Prop) (d : list (string * V)) k v :
  Forall P (dict_values d) → P v → Forall P (dict_values (dict_set d k v)).
Proof.
  unfold dict_values. intros Hd Hv. induction d as [|[k' v'] d IH]; simpl.
  - by constructor.
  - apply Forall_cons in Hd as [Hv' Hd].
    case_decide; simpl; constructor; auto.
Qed.

(** The copies made by [deepcopy] are all new objects. *)
Lemma deepcopy_items_frame (h0 : gmap loc obj) items memo y h :
  h0 ⊆ h →
  map_Forall (fun _ l' => fresh_for h0 l') memo →
  Forall (fresh_for h0) (dict_values y) →
  h0 ⊆ (deepcopy_items items memo y h).2
  ∧ ∀ y', (deepcopy_items items memo y h).1 = Ok y' →
          Forall (fresh_for h0) (dict_values y').
Proof.
  revert memo y h. induction items as [|[key value] rest IH];
    intros memo y h Hsub Hmemo Hy; simpl.
  - split; [done|]. by intros y' [= <-].
  - destruct (memo !! value) as [value'|] eqn:Hm.
    + apply IH; [done|done|].
      apply dict_values_set_Forall; [done|]. by apply (Hmemo value).
    + unfold mbind, heap_op_bind, read_spec.
      destruct (h !! value) as [[entries|fields]|]; simpl; try done.
      destruct (alloc_frame h0 h (ResolutionSpec fields) Hsub)
        as (Hl' & Hsub').
      apply IH; [done| |].
      * by apply map_Forall_insert_2.
      * by apply dict_values_set_Forall.
Qed.

Lemma scale_resolutions_frame (h0 : gmap loc obj) values s h :
  h0 ⊆ h → Forall (fresh_for h0) values →
  h0 ⊆ (scale_resolutions values s h).2.
Proof.
  revert h. induction values as [|r rest IH]; intros h Hsub Hnew; simpl; [done|].
  apply Forall_cons in Hnew as [Hr Hrest].
  unfold mbind, heap_op_bind, read_spec, lift.
  destruct (h !! r) as [[entries|fields]|]; simpl; try done.
  destruct (dict_subscript fields "resolution") as [v|]; simpl; [|done].
  apply IH; [|done]. by apply insert_subseteq_r.
Qed.

Lemma deepcopy_frame (h0 : gmap loc obj) resolutions h :
  h0 ⊆ h →
  h0 ⊆ (deepcopy resolutions h).2
  ∧ ∀ l', (deepcopy resolutions h).1 = Ok (Some l') →
      ∃ y, (deepcopy resolutions h).2 !! l' = Some (ResolutionMap y)
           ∧ Forall (fresh_for h0) (dict_values y).
Proof.
  intros Hsub. destruct resolutions as [l|]; simpl; [|by split].
  unfold mbind, heap_op_bind, read_map.
  destruct (h !! l) as [[entries|fields]|]; simpl; try by split.
  destruct (deepcopy_items_frame h0 entries ∅ [] h Hsub) as [Hsub1 Hy].
  { apply map_Forall_empty. }
  { constructor. }
  destruct (deepcopy_items entries ∅ [] h) as [[y|e] h1]; simpl in *; [|by split].
  destruct (alloc_frame h0 h1 (ResolutionMap y) Hsub1) as [_ Hsub2].
  split; [done|]. intros l' [= <-]. exists y.
  split; [apply lookup_insert_eq|by apply Hy].
Qed.

Lemma premesh_resolutions_frame (h0 : gmap loc obj) resolutions s h :
  h0 ⊆ h → h0 ⊆ (premesh_resolutions resolutions s h).2.
Proof.
  intros Hsub. unfold premesh_resolutions, mbind, heap_op_bind.
  destruct (deepcopy_frame h0 resolutions h Hsub) as [Hsub1 Hcopy].
  destruct (deepcopy resolutions h) as [[[l'|]|e] h1]; simpl in *; [| |done].
  - destruct (Hcopy l' eq_refl) as (y & Hl' & Hy).
    unfold read_map. rewrite Hl'. simpl.
    case_bool_decide.
    + pose proof (scale_resolutions_frame h0 (dict_values y) s h1 Hsub1 Hy) as Hs.
      by destruct (scale_resolutions (dict_values y) s h1) as [[[]|e] h2].
    + by apply alloc_frame.
  - by apply alloc_frame.
Qed.

Lemma resolutions_entries_heap resolutions h :
  (resolutions_entries resolutions h).2 = h.
Proof.
  destruct resolutions as [l|]; simpl; [|done].
  unfold mbind, heap_op_bind, read_map.
  by destruct (h !! l) as [[entries|fields]|].
Qed.
End store_facts.

Section xyz_mesh_store.
Import Gmsh.
Local Open Scope R_scope.
Context {shapely : Shapely} {helpers : Helpers} {meshwell : Meshwell}.

(** C10. Whatever [xyz_mesh] does and however it ends, every object that
    existed when it was called is still there with the contents it had:
    in particular the [resolutions] dictionary and the dictionaries it
    holds. The scaling only writes to the copies. *)
Theorem xyz_mesh_keeps_resolutions (a : xyz_mesh_args) (h : gmap loc obj) :
  h ⊆ (xyz_mesh a h).2
  ∧ (∀ l o, h !! l = Some o → (xyz_mesh a h).2 !! l = Some o)
  ∧ (∀ l entries,
       resolutions a = Some l → h !! l = Some (ResolutionMap entries) →
       (xyz_mesh a h).2 !! l = Some (ResolutionMap entries)
       ∧ ∀ layername l' fields,
           dict_get entries layername = Some l' →
           h !! l' = Some (ResolutionSpec fields) →
           (xyz_mesh a h).2 !! l' = Some (ResolutionSpec fields)).
Proof.
  assert (h ⊆ (xyz_mesh a h).2) as Hsub.
  { unfold xyz_mesh, mbind, heap_op_bind, lift.
    destruct (add_background _ _ _) as [[lpd ls]|e]; simpl; [|done].
    pose proof (resolutions_entries_heap (resolutions a) h) as Hh.
    destruct (resolutions_entries (resolutions a) h) as [[entries|e] h1];
      simpl in Hh; subst h1; [|done].
    destruct (define_prisms _ _ _ _ _ _ _) as [prisms|e]; simpl; [|done].
    match goal with
    | |- context [match ?m h with _ => _ end] =>
        assert ((m h).2 = h) as Hports
          by (destruct (edge_ports a); simpl; done);
        destruct (m h) as [[ents|e] h2]; simpl in Hports; subst h2; [|done]
    end.
    pose proof (premesh_resolutions_frame h (resolutions a)
                  (global_scaling_premesh a) h (reflexivity h)) as Hp.
    by destruct (premesh_resolutions _ _ h) as [[l|e] h3]. }
  split; [done|]. split.
  - intros l o Hl. by eapply lookup_weaken.
  - intros l entries _ Hl. split; [by eapply lookup_weaken|].
    intros layername l' fields _ Hl'. by eapply lookup_weaken.
Qed.
End xyz_mesh_store.

Section store_examples.
Import Gmsh Script.
Local Open Scope R_scope.
#[local] Existing Instances rings layouts checks.

Example premesh_resolutions_scales_copy :
  ∃ outer inner h',
    premesh_resolutions (Some 1%positive) 2 resolutions_heap = (Ok outer, h')
    ∧ h' !! outer = Some (ResolutionMap [("core", inner)])
    ∧ h' !! inner = Some (ResolutionSpec [("resolution", 0.3 * 2)])
    ∧ h' !! 1%positive = Some (ResolutionMap [("core", 2%positive)])
    ∧ h' !! 2%positive = Some (ResolutionSpec [("resolution", 0.3)]).
Proof.
  eexists _, _, _. split; [vm_compute; reflexivity|].
  repeat split; vm_compute; reflexivity.
Qed.

Example xyz_mesh_script_returns :
  ∃ call h',
    xyz_mesh (mesh_args 2) resolutions_heap = (Ok call, h')
    ∧ length (entities_list call) = 3%nat
    ∧ h' !! 1%positive = Some (ResolutionMap [("core", 2%positive)])
    ∧ h' !! 2%positive = Some (ResolutionSpec [("resolution", 0.3)])
    ∧ h' !! 3%positive = Some (ResolutionSpec [("resolution", 0.3 * 2)]).
Proof.
  eexists _, _. split; [vm_compute; reflexivity|].
  repeat split; vm_compute; reflexivity.
Qed.
End store_examples.

(** ** More on define_edgeport *)
Section define_edgeport_more.
Import Gmsh.
Local Open Scope R_scope.
Context {meshwell : Meshwell}.

(** X7. A [width_pad] that counts as false ([None], 0, an empty string or
    an empty dictionary) is the same as no [width_pad] at all. *)
Theorem define_edgeport_falsy_width_pad (port : Port.t)
    (port_dict : gmap string pyval) (model : Model.t) :
  truthy (get_or port_dict "width_pad" PNone) = false →
  width_pad_of port_dict = PNum 0
  ∧ define_edgeport port port_dict model
    = define_edgeport port (delete "width_pad" port_dict) model.
Proof.
  intros Hf.
  assert (width_pad_of port_dict = PNum 0) as Hw
    by (unfold width_pad_of, py_or; by rewrite Hf).
  assert (width_pad_of (delete "width_pad" port_dict) = PNum 0) as Hw'.
  { unfold width_pad_of, py_or, get_or. by rewrite lookup_delete_eq. }
  split; [done|]. unfold define_edgeport.
  rewrite Hw, Hw'. unfold get_or.
  by rewrite !lookup_delete_ne.
Qed.

(** X8. For an axis-aligned port with numeric z values, a [width_pad] that
    is a non-empty string or a non-empty dictionary makes the call raise
    [TypeError]. *)
Theorem define_edgeport_bad_width_pad (port : Port.t)
    (port_dict : gmap string pyval) (model : Model.t) (lo hi : R) (pad : pyval) :
  port_dict !! "zmin" = Some (PNum lo) →
  port_dict !! "zmax" = Some (PNum hi) →
  axis_aligned (Port.orientation port) →
  port_dict !! "width_pad" = Some pad →
  truthy pad = true →
  (∀ r, pad ≠ PNum r) →
  define_edgeport port port_dict model = Raise TypeError.
Proof.
  intros Hlo Hhi Ho Hpad Ht Hnum.
  assert (padded_width port (width_pad_of port_dict) = Raise TypeError) as Hw.
  { unfold width_pad_of, py_or, get_or. rewrite Hpad. simpl. rewrite Ht.
    destruct pad as [|r|s|d]; try done. by destruct (Hnum r). }
  unfold define_edgeport, get_or. rewrite Hlo, Hhi. simpl.
  destruct (Port.center port) as [cx cy].
  destruct Ho as [Ho|[Ho|[Ho|Ho]]]; rewrite Ho;
    repeat (case_decide; [try lra|]); try lra; by rewrite Hw.
Qed.

(** X9. Whenever [define_edgeport] returns, the box is an [add_box] entity
    of dimension 3 on the given model; it carries the dictionary's
    resolution ([None] when there is none) and is named by
    [port_dict["physical_name"]] when that key is present, whatever its
    value, and by the port's name otherwise. *)
Theorem define_edgeport_labels (port : Port.t) (port_dict : gmap string pyval)
    (model : Model.t) (box : GMSH_entity.t) :
  define_edgeport port port_dict model = Ok box →
  GMSH_entity.gmsh_fn box = GMSH_entity.occ_add_box
  ∧ GMSH_entity.dimension box = 3%Z
  ∧ GMSH_entity.model box = model
  ∧ GMSH_entity.resolution box = default PNone (port_dict !! "resolution")
  ∧ (∀ v, port_dict !! "physical_name" = Some v →
          GMSH_entity.physical_name box = v)
  ∧ (port_dict !! "physical_name" = None →
     GMSH_entity.physical_name box = PStr (Port.name port)).
Proof.
  unfold define_edgeport.
  destruct (py_sub _ _) as [dz|]; simpl; [|done].
  destruct (Port.center port) as [cx cy].
  repeat case_decide;
    try (destruct (padded_width port (width_pad_of port_dict)); simpl);
    try done; intros ->%GMSH_entity_new_Ok; simpl; unfold get_or;
    (repeat split; try done; [by intros v ->|by intros ->]).
Qed.
End define_edgeport_more.

Section define_edgeport_more_examples.
Import Gmsh.
Local Open Scope R_scope.
#[local] Existing Instances Script.checks.

Lemma define_edgeport_falsy_width_pad_script :
  truthy (get_or (<["width_pad" := PStr ""]> Script.o1_dict) "width_pad" PNone)
  = false
  ∧ define_edgeport Script.o1 (<["width_pad" := PStr ""]> Script.o1_dict)
      Script.model
    = define_edgeport Script.o1
        (delete "width_pad" (<["width_pad" := PStr ""]> Script.o1_dict))
        Script.model.
Proof.
  assert (truthy (get_or (<["width_pad" := PStr ""]> Script.o1_dict)
                    "width_pad" PNone) = false) as Hf.
  { unfold get_or. by rewrite lookup_insert_eq. }
  split; [exact Hf|].
  exact (proj2 (define_edgeport_falsy_width_pad Script.o1 _ Script.model Hf)).
Defined.

Lemma define_edgeport_bad_width_pad_script :
  define_edgeport Script.o1 (<["width_pad" := PStr "wide"]> Script.o1_dict)
    Script.model = Raise TypeError.
Proof.
  apply (define_edgeport_bad_width_pad _ _ _ (-1) 1 (PStr "wide")).
  - done.
  - done.
  - right; right; left. done.
  - by rewrite lookup_insert_eq.
  - done.
  - done.
Defined.

Lemma script_edgeport_returns :
  ∃ box, define_edgeport Script.o1 Script.o1_dict Script.model = Ok box.
Proof.
  unfold define_edgeport. rewrite script_width_pad.
  unfold get_or, Script.o1_dict. simplify_map_eq. simpl. by eexists.
Qed.

Lemma define_edgeport_labels_script :
  ∃ box,
    define_edgeport Script.o1 Script.o1_dict Script.model = Ok box
    ∧ GMSH_entity.dimension box = 3%Z
    ∧ GMSH_entity.physical_name box = PStr "edgeport".
Proof.
  destruct script_edgeport_returns as [box Hbox].
  exists box. split; [exact Hbox|].
  destruct (define_edgeport_labels _ _ _ box Hbox) as (_ & Hd & _ & _ & Hn & _).
  split; [exact Hd|]. by apply Hn.
Defined.
End define_edgeport_more_examples.

(** ** More on define_prisms *)
Section dict_more.
Context {K V : Type} `{EqDecision K}.
Implicit Types (d l : list (K * V)) (k : K) (v : V).

Lemma dict_set_NoDup d k v :
  NoDup (dict_keys d) → NoDup (dict_keys (dict_set d k v)).
Proof.
  intros Hnd. destruct (decide (k ∈ dict_keys d)) as [Hin|Hin].
  - by rewrite dict_keys_set_present.
  - rewrite dict_keys_set_absent by done.
    apply NoDup_app. split; [done|]. split.
    + intros k' Hk' ->%list_elem_of_singleton. done.
    + apply NoDup_singleton.
Qed.

Lemma dict_update_NoDup d l :
  NoDup (dict_keys d) → NoDup (dict_keys (dict_update d l)).
Proof.
  revert d. induction l as [|[k v] l IH]; intros d Hnd; [done|].
  rewrite dict_update_cons. by apply IH, dict_set_NoDup.
Qed.

Lemma dict_of_pairs_NoDup l : NoDup (dict_keys (dict_of_pairs l)).
Proof. apply dict_update_NoDup. constructor. Qed.

Lemma dict_set_length d k v : (length (dict_set d k v) ≤ S (length d))%nat.
Proof.
  induction d as [|[k' v'] d IH]; simpl; [lia|].
  case_decide; simpl; lia.
Qed.

Lemma dict_update_length d l :
  (length (dict_update d l) ≤ length d + length l)%nat.
Proof.
  revert d. induction l as [|[k v] l IH]; intros d; [simpl; lia|].
  rewrite dict_update_cons. specialize (IH (dict_set d k v)).
  pose proof (dict_set_length d k v). simpl. lia.
Qed.

Lemma dict_of_pairs_length l : (length (dict_of_pairs l) ≤ length l)%nat.
Proof. apply (dict_update_length [] l). Qed.
End dict_more.

Section define_prisms_more.
Import Gmsh.
Local Open Scope R_scope.
Context {shapely : Shapely} {helpers : Helpers} {meshwell : Meshwell}.

Lemma zip_take_min {A B} (l : list A) (k : list B) :
  zip l k = zip (take (length l `min` length k) l)
                (take (length l `min` length k) k).
Proof.
  revert k. induction l as [|a l IH]; intros [|b k]; simpl; try done.
  by rewrite <- IH.
Qed.

Lemma define_prisms_loop_exn lpd bls phys mb model res sf names acc e :
  (∀ n, n ∈ names → is_Some (dict_get (LayerStack.layers bls) n)) →
  define_prisms_loop lpd bls phys mb model res sf names acc = Raise e →
  e = KeyError ∧ ∃ n, n ∈ names ∧ dict_get lpd n = None.
Proof.
  revert acc. induction names as [|n rest IH]; intros acc Hl Hrun; [done|].
  assert (∀ m, m ∈ rest → is_Some (dict_get (LayerStack.layers bls) m))
    as Hl' by (intros; apply Hl; by right).
  destruct (dict_get lpd n) as [polys|] eqn:Hpolys.
  - destruct (Hl n) as [layer_ Hlayer]; [by left|].
    rewrite (define_prisms_loop_cons _ _ _ _ _ _ _ _ _ _ polys layer_) in Hrun by done.
    assert (e = KeyError ∧ ∃ m, m ∈ rest ∧ dict_get lpd m = None)
      as (-> & m & Hm & Hnone).
    { destruct (is_empty polys); [by eapply IH|].
      destruct (LayerLevel.z_to_bias layer_); by eapply IH. }
    split; [done|]. exists m. split; [by right|done].
  - rewrite define_prisms_loop_missing in Hrun by done. injection Hrun as <-.
    split; [done|]. exists n. split; [by left|done].
Qed.

(** X10. [define_prisms] raises exactly when some layer of the bufferized
    stack has no entry in [layer_polygons_dict], also when that layer would
    have been skipped; what it raises is [KeyError]. *)
Theorem define_prisms_missing_polygons lpd ls phys mb model res sf :
  (∀ n, n ∈ dict_keys (LayerStack.layers (bufferize ls)) →
        dict_get lpd n = None →
        define_prisms lpd ls phys mb model res sf = Raise KeyError)
  ∧ (∀ e, define_prisms lpd ls phys mb model res sf = Raise e →
          e = KeyError
          ∧ ∃ n, n ∈ dict_keys (LayerStack.layers (bufferize ls))
                 ∧ dict_get lpd n = None).
Proof.
  assert (∀ e, define_prisms lpd ls phys mb model res sf = Raise e →
            e = KeyError
            ∧ ∃ n, n ∈ dict_keys (LayerStack.layers (bufferize ls))
                   ∧ dict_get lpd n = None) as Hexn.
  { intros e He. eapply define_prisms_loop_exn; [apply dict_get_key|exact He]. }
  split; [|done]. intros n Hin Hnone.
  destruct (define_prisms lpd ls phys mb model res sf) as [prisms|e] eqn:Hrun.
  - apply define_prisms_inv in Hrun as [Hg _].
    destruct (Hg n Hin) as [? ?]. congruence.
  - by destruct (Hexn e eq_refl) as [-> _].
Qed.

(** What holds of the prism of each layer holds of the list returned, layer
    by layer. *)
Lemma define_prisms_loop_Forall2 lpd bls phys mb model res sf names acc out
    (P : string → Prism.t → Prop) :
  (∀ n polys layer_ z_to_bias p,
     dict_get lpd n = Some polys →
     dict_get (LayerStack.layers bls) n = Some layer_ →
     LayerLevel.z_to_bias layer_ = Some z_to_bias →
     Prism.buffers p = buffer_dict_of layer_ sf z_to_bias →
     P n p) →
  (∀ n, n ∈ names → is_Some (dict_get (LayerStack.layers bls) n)) →
  define_prisms_loop lpd bls phys mb model res sf names acc = Ok out →
  ∃ new, out = acc ++ new
         ∧ Forall2 P (filter (fun n => wants_prism lpd bls n) names) new.
Proof.
  intros HP. revert acc. induction names as [|n rest IH]; intros acc Hl Hrun.
  - injection Hrun as <-. exists []. split; [by rewrite app_nil_r|constructor].
  - assert (∀ m, m ∈ rest → is_Some (dict_get (LayerStack.layers bls) m))
      as Hl' by (intros; apply Hl; by right).
    destruct (dict_get lpd n) as [polys|] eqn:Hpolys.
    2:{ by rewrite define_prisms_loop_missing in Hrun. }
    destruct (Hl n) as [layer_ Hlayer]; [by left|].
    rewrite (define_prisms_loop_cons _ _ _ _ _ _ _ _ _ _ polys layer_) in Hrun by done.
    destruct (is_empty polys) eqn:He.
    { rewrite filter_cons_False; [by apply IH|].
      rewrite (wants_prism_false_empty _ _ _ polys) by done. by intros []. }
    destruct (LayerLevel.z_to_bias layer_) as [z_to_bias|] eqn:Hz.
    2:{ rewrite filter_cons_False; [by apply IH|].
        rewrite (wants_prism_false_no_bias _ _ _ polys layer_) by done.
        by intros []. }
    rewrite filter_cons_True
      by (rewrite (wants_prism_true _ _ _ polys layer_ z_to_bias) by done;
          exact I).
    destruct (IH _ Hl' Hrun) as (new & -> & Hall).
    eexists (_ :: new). split; [by rewrite <- app_assoc|].
    constructor; [|done]. by eapply HP.
Qed.

(** X11. The buffer dictionary of every prism [define_prisms] returns has
    pairwise distinct z-levels and at most as many entries as the shorter
    of the two [z_to_bias] lists of the prism's own layer; what the longer
    list has in excess is ignored. *)
Theorem define_prisms_buffers_wellformed lpd ls phys mb model res sf prisms :
  define_prisms lpd ls phys mb model res sf = Ok prisms →
  Forall2 (fun n p =>
    ∃ layer_ z_to_bias,
      dict_get (LayerStack.layers (bufferize ls)) n = Some layer_
      ∧ LayerLevel.z_to_bias layer_ = Some z_to_bias
      ∧ NoDup (dict_keys (Prism.buffers p))
      ∧ let m := (length z_to_bias.1 `min` length z_to_bias.2)%nat in
        (length (Prism.buffers p) ≤ m)%nat
        ∧ Prism.buffers p
          = buffer_dict_of layer_ sf (take m z_to_bias.1, take m z_to_bias.2))
    (filter (fun n => wants_prism lpd (bufferize ls) n)
            (dict_keys (LayerStack.layers (bufferize ls)))) prisms.
Proof.
  intros Hrun. unfold define_prisms in Hrun.
  eapply define_prisms_loop_Forall2 in Hrun as (new & -> & Hall);
    [exact Hall| |apply dict_get_key].
  intros n polys layer_ z_to_bias p _ Hlayer Hz Hb. cbv beta. rewrite Hb.
  exists layer_, z_to_bias. split; [done|]. split; [done|]. split.
  - apply dict_of_pairs_NoDup.
  - split.
    + unfold buffer_dict_of.
      etrans; [apply dict_of_pairs_length|].
      rewrite length_zip, !length_map. done.
    + unfold buffer_dict_of. cbn [fst snd].
      rewrite (zip_take_min (map _ z_to_bias.1) (map _ z_to_bias.2)).
      rewrite !length_map. by rewrite <- !fmap_take.
Qed.
End define_prisms_more.

(** ** How xyz_mesh puts its parts together *)
Section xyz_mesh_more.
Import Gmsh.
Local Open Scope R_scope.
Context {shapely : Shapely} {helpers : Helpers} {meshwell : Meshwell}.

Lemma add_edgeports_boxes ports edge_ports model (acc out : list entity) :
  add_edgeports ports edge_ports model acc = Ok out →
  ∃ boxes,
    out = acc ++ (EEntity <$> boxes)
    ∧ Forall2 (fun (pd : string * gmap string pyval) box =>
                 ∃ port, dict_get ports pd.1 = Some port
                         ∧ define_edgeport port pd.2 model = Ok box)
        edge_ports boxes.
Proof.
  revert acc. induction edge_ports as [|[portname d] rest IH]; intros acc; simpl.
  - intros [= <-]. exists []. split; [by rewrite app_nil_r|constructor].
  - unfold dict_subscript.
    destruct (dict_get ports portname) as [port|] eqn:Hport; simpl; [|done].
    destruct (define_edgeport port d model) as [box|] eqn:Hbox; simpl; [|done].
    intros (boxes & -> & Hall)%IH. exists (box :: boxes). split.
    + by rewrite <- app_assoc.
    + constructor; [by exists port|done].
Qed.

Lemma add_edgeports_unknown ports edge_ports model (acc : list entity) name d :
  (name, d) ∈ edge_ports → dict_get ports name = None →
  ∃ e, add_edgeports ports edge_ports model acc = Raise e.
Proof.
  intros Hin Hnone.
  destruct (add_edgeports ports edge_ports model acc) as [out|e] eqn:Hrun;
    [|by exists e].
  apply add_edgeports_boxes in Hrun as (boxes & _ & Hall).
  apply list_elem_of_lookup in Hin as [i Hi].
  destruct (Forall2_lookup_l _ _ _ _ _ Hall Hi) as (box & _ & port & Hp & _).
  simpl in Hp. congruence.
Qed.

Lemma resolutions_entries_inv resolutions h r h' :
  resolutions_entries resolutions h = (r, h') →
  h' = h
  ∧ ∀ entries, r = Ok (Some entries) →
      ∃ l, resolutions = Some l ∧ h !! l = Some (ResolutionMap entries).
Proof.
  destruct resolutions as [l|]; simpl.
  - unfold mbind, heap_op_bind, read_map.
    destruct (h !! l) as [[entries|fields]|] eqn:Hl; simpl; intros [= <- <-];
      (split; [done|]); try done.
    intros ? [= <-]. by exists l.
  - intros [= <- <-]. split; [done|]. done.
Qed.

Lemma heap_bind_inv {A B} (m : heap_op A) (k : A → heap_op B) h r h' :
  (m ≫= k) h = (r, h') →
  (∃ e, m h = (Raise e, h') ∧ r = Raise e)
  ∨ (∃ a h1, m h = (Ok a, h1) ∧ k a h1 = (r, h')).
Proof.
  unfold mbind, heap_op_bind. destruct (m h) as [[a|e] h1].
  - intros Hk. right. by exists a, h1.
  - intros [= <- <-]. left. by exists e.
Qed.

Lemma lift_inv {A} (x : result A) h r h' :
  lift x h = (r, h') → x = r ∧ h' = h.
Proof. unfold lift. by intros [= -> ->]. Qed.

(** The steps of [xyz_mesh] before the resolutions are copied, as one
    store-free computation. *)
Lemma xyz_mesh_steps a h r h' :
  xyz_mesh a h = (r, h') →
  (∃ e, r = Raise e ∧ h' = h)
  ∨ ∃ lpd ls entries prisms ents,
      add_background a (xyz_mesh_polygons a) (layer_stack a) = Ok (lpd, ls)
      ∧ resolutions_entries (resolutions a) h = (Ok entries, h)
      ∧ define_prisms lpd ls (layer_physical_map a) (layer_meshbool_map a)
          (Model.Make (n_threads a)) entries (global_scaling_premesh a)
        = Ok prisms
      ∧ match edge_ports a with
        | None => ents = EPrism <$> prisms
        | Some eps =>
            add_edgeports (component_ports (xyz_mesh_component a)) eps
              (Model.Make (n_threads a)) (EPrism <$> prisms) = Ok ents
        end
      ∧ h ⊆ h'
      ∧ ((r = Ok (Mesh (Model.Make (n_threads a)) ents)
          ∧ ∃ l, (premesh_resolutions (resolutions a)
                    (global_scaling_premesh a) h).1 = Ok l)
         ∨ ∃ e, r = Raise e
                ∧ (premesh_resolutions (resolutions a)
                     (global_scaling_premesh a) h).1 = Raise e).
Proof.
  unfold xyz_mesh. fold (xyz_mesh_component a). fold (xyz_mesh_polygons a).
  intros Hrun.
  apply heap_bind_inv in Hrun as [(e & Hm & ->)|([lpd ls] & h1 & Hbg & Hrun)].
  { apply lift_inv in Hm as [_ ->]. left. by exists e. }
  apply lift_inv in Hbg as [Hbg ->].
  apply heap_bind_inv in Hrun as [(e & Hm & ->)|(entries & h1 & Hre & Hrun)].
  { apply resolutions_entries_inv in Hm as [-> _]. left. by exists e. }
  apply resolutions_entries_inv in Hre as Hh. destruct Hh as [-> _].
  apply heap_bind_inv in Hrun as [(e & Hm & ->)|(prisms & h1 & Hprisms & Hrun)].
  { apply lift_inv in Hm as [_ ->]. left. by exists e. }
  apply lift_inv in Hprisms as [Hprisms ->].
  apply heap_bind_inv in Hrun as [(e & Hm & ->)|(ents & h1 & Hports & Hrun)].
  { left. exists e. split; [done|].
    destruct (edge_ports a); [by apply lift_inv in Hm as [_ ->]|done]. }
  assert (h1 = h ∧ match edge_ports a with
                   | None => ents = EPrism <$> prisms
                   | Some eps =>
                       add_edgeports (component_ports (xyz_mesh_component a)) eps
                         (Model.Make (n_threads a)) (EPrism <$> prisms) = Ok ents
                   end) as [-> Hents].
  { destruct (edge_ports a).
    - by apply lift_inv in Hports as [? ->].
    - by injection Hports as <- <-. }
  right. exists lpd, ls, entries, prisms, ents.
  split; [done|]. split; [done|]. split; [done|]. split; [done|].
  pose proof (premesh_resolutions_frame h (resolutions a)
                (global_scaling_premesh a) h (reflexivity h)) as Hsub.
  apply heap_bind_inv in Hrun as [(e & Hm & ->)|(l & h2 & Hm & Hrun)];
    rewrite Hm in Hsub; simpl in Hsub.
  - split; [done|]. right. exists e. by rewrite Hm.
  - injection Hrun as <- <-. split; [done|]. left. split; [done|].
    exists l. by rewrite Hm.
Qed.

Lemma xyz_mesh_returns_inv a h call h' :
  xyz_mesh a h = (Ok call, h') →
  ∃ lpd ls entries prisms boxes,
    add_background a (xyz_mesh_polygons a) (layer_stack a) = Ok (lpd, ls)
    ∧ resolutions_entries (resolutions a) h = (Ok entries, h)
    ∧ define_prisms lpd ls (layer_physical_map a) (layer_meshbool_map a)
        (Model.Make (n_threads a)) entries (global_scaling_premesh a)
      = Ok prisms
    ∧ call = Mesh (Model.Make (n_threads a))
               ((EPrism <$> prisms) ++ (EEntity <$> boxes))
    ∧ Forall2 (fun (pd : string * gmap string pyval) box =>
                 ∃ port,
                   dict_get (component_ports (xyz_mesh_component a)) pd.1
                   = Some port
                   ∧ define_edgeport port pd.2 (Model.Make (n_threads a)) = Ok box)
        (default [] (edge_ports a)) boxes
    ∧ h ⊆ h'.
Proof.
  intros [(e & [=] & _)|(lpd & ls & entries & prisms & ents & Hbg & Hre & Hp
                          & Hents & Hsub & Hr)]%xyz_mesh_steps.
  destruct Hr as [[[= ->] _]|(e & [=] & _)].
  assert (∃ boxes,
            ents = (EPrism <$> prisms) ++ (EEntity <$> boxes)
            ∧ Forall2 (fun (pd : string * gmap string pyval) box =>
                 ∃ port,
                   dict_get (component_ports (xyz_mesh_component a)) pd.1
                   = Some port
                   ∧ define_edgeport port pd.2 (Model.Make (n_threads a)) = Ok box)
                (default [] (edge_ports a)) boxes) as (boxes & -> & Hboxes).
  { destruct (edge_ports a) as [eps|]; simpl.
    - by apply add_edgeports_boxes in Hents.
    - exists []. split; [by rewrite app_nil_r|constructor]. }
  by exists lpd, ls, entries, prisms, boxes.
Qed.

(** X13. When [xyz_mesh] returns, the entities it hands to the mesher are
    the prisms of [define_prisms] (run on the cleaned-up polygons and the
    layer stack, both with the background added) followed by one box per
    entry of [edge_ports], in the order of that dictionary, all on one
    model with [n_threads] threads. *)
Theorem xyz_mesh_entities a h call h' :
  xyz_mesh a h = (Ok call, h') →
  ∃ lpd ls entries prisms boxes,
    add_background a (xyz_mesh_polygons a) (layer_stack a) = Ok (lpd, ls)
    ∧ define_prisms lpd ls (layer_physical_map a) (layer_meshbool_map a)
        (Model.Make (n_threads a)) entries (global_scaling_premesh a)
      = Ok prisms
    ∧ mesh_model call = Model.Make (n_threads a)
    ∧ entities_list call = (EPrism <$> prisms) ++ (EEntity <$> boxes)
    ∧ Forall2 (fun (pd : string * gmap string pyval) box =>
                 ∃ port,
                   dict_get (component_ports (xyz_mesh_component a)) pd.1
                   = Some port
                   ∧ define_edgeport port pd.2 (Model.Make (n_threads a)) = Ok box)
        (default [] (edge_ports a)) boxes
    ∧ length (entities_list call)
      = (length prisms + length (default [] (edge_ports a)))%nat.
Proof.
  intros (lpd & ls & entries & prisms & boxes & Hbg & _ & Hp & -> & Hboxes & _)
    %xyz_mesh_returns_inv.
  exists lpd, ls, entries, prisms, boxes. simpl.
  repeat (split; [done|]).
  rewrite length_app, !length_fmap. f_equal. symmetry.
  by eapply Forall2_length.
Qed.

(** X14. A background added by [xyz_mesh] is scaled twice: its polygon is
    stored scaled by [global_scaling_premesh] and [define_prisms] scales
    it again, while the polygons of every other layer are scaled once. *)
Theorem xyz_mesh_background_scaled_twice a h call h' tag :
  xyz_mesh a h = (Ok call, h') →
  background_tag a = Some tag →
  let s := global_scaling_premesh a in
  let rectangle :=
    Polygon (background_corners
               (bounds (unary_union (dict_values (xyz_mesh_polygons a))))
               (background_padding a)) in
  ∃ lpd ls entries prisms,
    add_background a (xyz_mesh_polygons a) (layer_stack a) = Ok (lpd, ls)
    ∧ Forall2 (prism_of_layer lpd (bufferize ls) (layer_physical_map a)
                 (layer_meshbool_map a) (Model.Make (n_threads a)) entries s)
        (filter (fun n => wants_prism lpd (bufferize ls) n)
                (dict_keys (LayerStack.layers (bufferize ls))))
        prisms
    ∧ (∀ p, p ∈ prisms → EPrism p ∈ entities_list call)
    ∧ (∀ p, prism_of_layer lpd (bufferize ls) (layer_physical_map a)
              (layer_meshbool_map a) (Model.Make (n_threads a)) entries s tag p →
            Prism.polygons p
            = scale (scale rectangle s s (0, 0, 0)) s s (0, 0, 0))
    ∧ (∀ n p, n ≠ tag →
            prism_of_layer lpd (bufferize ls) (layer_physical_map a)
              (layer_meshbool_map a) (Model.Make (n_threads a)) entries s n p →
            ∃ polys, dict_get (xyz_mesh_polygons a) n = Some polys
                     ∧ Prism.polygons p = scale polys s s (0, 0, 0)).
Proof.
  intros (lpd & ls & entries & prisms & boxes & Hbg & _ & Hp & -> & _ & _)
    %xyz_mesh_returns_inv Htag s rectangle.
  exists lpd, ls, entries, prisms. split; [done|].
  apply define_prisms_inv in Hp as [_ Hall]. split; [done|]. split.
  { intros p Hin. simpl. apply elem_of_app. left.
    apply list_elem_of_fmap. by exists p. }
  assert (lpd = dict_set (xyz_mesh_polygons a) tag (scale rectangle s s (0, 0, 0)))
    as ->.
  { unfold add_background in Hbg. rewrite Htag in Hbg.
    destruct (np_min _) as [zmin|]; simpl in Hbg; [|done].
    destruct (np_max _) as [zmax|]; simpl in Hbg; [|done].
    by injection Hbg as <- _. }
  split.
  - intros p (polys & _ & _ & Hg & _ & _ & _ & -> & _).
    rewrite dict_get_set_eq in Hg. by injection Hg as <-.
  - intros n p Hn (polys & _ & _ & Hg & _ & _ & _ & -> & _).
    rewrite dict_get_set_ne in Hg by done. by exists polys.
Qed.

(** X15. The prisms [xyz_mesh] hands to the mesher carry the caller's own
    resolution objects, and these still hold the values they held before
    the call: the scaling by [global_scaling_premesh] is applied to a copy
    that no prism refers to. *)
Theorem xyz_mesh_prisms_keep_resolutions a h call h' :
  xyz_mesh a h = (Ok call, h') →
  ∀ p l,
    EPrism p ∈ entities_list call →
    Prism.resolution p = Some l →
    ∃ outer entries layername,
      resolutions a = Some outer
      ∧ h !! outer = Some (ResolutionMap entries)
      ∧ dict_get entries layername = Some l
      ∧ ∀ o, h !! l = Some o → h' !! l = Some o.
Proof.
  intros (lpd & ls & entries & prisms & boxes & _ & Hre & Hp & -> & _ & Hsub)
    %xyz_mesh_returns_inv p l Hin Hres.
  simpl in Hin. apply elem_of_app in Hin as [Hin|Hin].
  2:{ apply list_elem_of_fmap in Hin as (? & [=] & _). }
  apply list_elem_of_fmap in Hin as (p' & [= <-] & Hin).
  apply define_prisms_inv in Hp as [_ Hall].
  apply list_elem_of_lookup in Hin as [i Hi].
  destruct (Forall2_lookup_r _ _ _ _ _ Hall Hi)
    as (n & _ & polys & layer_ & ztb & _ & _ & _ & _ & _ & _ & _ & Hr & _).
  rewrite Hres in Hr. unfold resolutions_get in Hr.
  destruct entries as [entries|]; [|done]. simpl in Hr.
  apply resolutions_entries_inv in Hre as [_ Hre].
  destruct (Hre entries eq_refl) as (outer & Houter & Hmap).
  exists outer, entries, n. repeat (split; [done|]).
  intros o Ho. by eapply lookup_weaken.
Qed.

(** X16. With a [background_tag] and a layer stack without z values,
    [xyz_mesh] raises [ValueError] and touches nothing in the store. *)
Theorem xyz_mesh_background_needs_levels a h tag :
  background_tag a = Some tag →
  list_unique_layer_stack_z (layer_stack a) = [] →
  xyz_mesh a h = (Raise ValueError, h).
Proof.
  intros Htag Hzs.
  destruct (xyz_mesh a h) as [r h'] eqn:Hrun.
  pose proof (add_background_no_levels a (xyz_mesh_polygons a) (layer_stack a)
                tag Htag Hzs) as Hbg.
  unfold xyz_mesh in Hrun. fold (xyz_mesh_component a) in Hrun.
  fold (xyz_mesh_polygons a) in Hrun.
  apply heap_bind_inv in Hrun as [(e & Hm & ->)|(? & ? & Hm & _)];
    apply lift_inv in Hm as [Hm ->]; rewrite Hbg in Hm; [|done].
  by injection Hm as <-.
Qed.

(** X17. An entry of [edge_ports] that names a port the component does not
    have makes [xyz_mesh] raise, and the store is left as it was. *)
Theorem xyz_mesh_unknown_edge_port a h eps name d :
  edge_ports a = Some eps →
  (name, d) ∈ eps →
  dict_get (component_ports (xyz_mesh_component a)) name = None →
  ∃ e, xyz_mesh a h = (Raise e, h).
Proof.
  intros Heps Hin Hnone.
  destruct (xyz_mesh a h) as [r h'] eqn:Hrun.
  apply xyz_mesh_steps in Hrun
    as [(e & -> & ->)|(lpd & ls & entries & prisms & ents & _ & _ & _ & Hents & _)];
    [by exists e|].
  rewrite Heps in Hents.
  destruct (add_edgeports_unknown (component_ports (xyz_mesh_component a)) eps
              (Model.Make (n_threads a)) (EPrism <$> prisms) name d Hin Hnone)
    as [e He].
  congruence.
Qed.
End xyz_mesh_more.

(** ** Runs of xyz_mesh on the data of the script *)
Section xyz_mesh_runs.
Import Gmsh Script.
Local Open Scope R_scope.
#[local] Existing Instances rings layouts checks.

Lemma script_run_with_resolutions :
  ∃ call h',
    xyz_mesh (call_args filtered_layer_stack (Some 1%positive) None 2 None)
      resolutions_heap = (Ok call, h').
Proof. eexists _, _. vm_compute. reflexivity. Qed.

Lemma script_run_with_background :
  ∃ call h',
    xyz_mesh (call_args filtered_layer_stack None (Some "background") 2 None) ∅
    = (Ok call, h').
Proof.
  destruct (np_min_spec (list_unique_layer_stack_z filtered_layer_stack))
    as (zmin & Hmin & _); [by rewrite script_z_values|].
  destruct (np_max_spec (list_unique_layer_stack_z filtered_layer_stack))
    as (zmax & Hmax & _); [by rewrite script_z_values|].
  unfold xyz_mesh, mbind, heap_op_bind, lift.
  cbn -[add_background define_prisms premesh_resolutions].
  rewrite (add_background_tagged (helpers := layouts) _ _ _ "background" zmin zmax)
    by done.
  cbn -[define_prisms premesh_resolutions dict_set scale Polygon bounds
        unary_union background_level background_corners].
  match goal with
  | |- context [define_prisms ?lpd ?ls ?phys ?mb ?m ?res ?s] =>
      destruct (define_prisms_run (helpers := layouts) lpd ls phys mb m res s)
        as (prisms & -> & _)
  end.
  { intros n Hn. cbn in Hn.
    repeat (apply elem_of_cons in Hn as [->|Hn]; [by eexists|]).
    by apply elem_of_nil in Hn. }
  cbn -[premesh_resolutions]. by eexists _, _.
Qed.

Lemma script_run_with_edge_port :
  ∃ call h',
    xyz_mesh (call_args filtered_layer_stack None None 1
                (Some [("o1", o1_dict); ("o2", o1_dict)])) ∅
    = (Ok call, h').
Proof.
  destruct script_edgeport_returns as [box Hbox].
  assert (∃ box2, define_edgeport (Port.Make "o2" (40, 0) 0.5 0) o1_dict model
                  = Ok box2) as [box2 Hbox2].
  { unfold define_edgeport. rewrite script_width_pad.
    unfold get_or, o1_dict. simplify_map_eq. simpl. by eexists. }
  unfold xyz_mesh, mbind, heap_op_bind, lift.
  cbn -[define_prisms add_edgeports premesh_resolutions layout_polygons].
  destruct (define_prisms_run (helpers := layouts) (layout_polygons c)
              filtered_layer_stack ∅ ∅ (Model.Make 1) None 1
              script_layers_have_polygons) as (prisms & -> & _).
  match goal with
  | |- context [add_edgeports ?ports ?eps ?m ?acc] =>
      assert (add_edgeports ports eps m acc
              = Ok ((acc ++ [EEntity box]) ++ [EEntity box2])) as ->
  end.
  { transitivity
      (define_edgeport o1 o1_dict model ≫= λ b1,
       define_edgeport (Port.Make "o2" (40, 0) 0.5 0) o1_dict model ≫= λ b2,
       Ok (((EPrism <$> prisms) ++ [EEntity b1]) ++ [EEntity b2]));
      [reflexivity|].
    rewrite Hbox. simpl. by rewrite Hbox2. }
  cbn -[premesh_resolutions]. by eexists _, _.
Qed.

Lemma xyz_mesh_entities_script :
  ∃ call h' prisms boxes,
    xyz_mesh (call_args filtered_layer_stack None None 1
                (Some [("o1", o1_dict); ("o2", o1_dict)])) ∅
    = (Ok call, h')
    ∧ entities_list call = (EPrism <$> prisms) ++ (EEntity <$> boxes)
    ∧ length boxes = 2%nat.
Proof.
  destruct script_run_with_edge_port as (call & h' & Hrun).
  destruct (xyz_mesh_entities (helpers := layouts) _ _ _ _ Hrun)
    as (lpd & ls & entries & prisms & boxes & _ & _ & _ & Hents & Hboxes & _).
  exists call, h', prisms, boxes. split; [exact Hrun|]. split; [exact Hents|].
  apply Forall2_length in Hboxes. rewrite <- Hboxes. reflexivity.
Defined.

Lemma xyz_mesh_background_scaled_twice_script :
  ∃ call h' lpd ls,
    xyz_mesh (call_args filtered_layer_stack None (Some "background") 2 None) ∅
    = (Ok call, h')
    ∧ add_background
        (call_args filtered_layer_stack None (Some "background") 2 None)
        (layout_polygons c) filtered_layer_stack = Ok (lpd, ls).
Proof.
  destruct script_run_with_background as (call & h' & Hrun).
  destruct (xyz_mesh_background_scaled_twice (helpers := layouts) _ _ _ _
              "background" Hrun eq_refl)
    as (lpd & ls & entries & prisms & Hbg & _).
  exists call, h', lpd, ls. split; [exact Hrun|exact Hbg].
Defined.

Lemma script_run_core_prism :
  ∃ call h' p,
    xyz_mesh (call_args filtered_layer_stack (Some 1%positive) None 2 None)
      resolutions_heap = (Ok call, h')
    ∧ EPrism p ∈ entities_list call
    ∧ Prism.resolution p = Some 2%positive.
Proof.
  eexists _, _, _. split; [vm_compute; reflexivity|]. split.
  - simpl. do 2 apply list_elem_of_further. apply list_elem_of_here.
  - reflexivity.
Qed.

Lemma xyz_mesh_prisms_keep_resolutions_script :
  ∃ call h',
    xyz_mesh (call_args filtered_layer_stack (Some 1%positive) None 2 None)
      resolutions_heap = (Ok call, h')
    ∧ h' !! 2%positive = Some (ResolutionSpec [("resolution", 0.3)]).
Proof.
  destruct script_run_core_prism as (call & h' & p & Hrun & Hin & Hres).
  destruct (xyz_mesh_prisms_keep_resolutions (helpers := layouts) _ _ _ _ Hrun
              p 2%positive Hin Hres)
    as (outer & entries & layername & _ & _ & _ & Hkeep).
  exists call, h'. split; [exact Hrun|]. apply Hkeep. reflexivity.
Defined.

Lemma xyz_mesh_background_needs_levels_script :
  xyz_mesh (call_args (LayerStack.Make []) None (Some "background") 1 None) ∅
  = (Raise ValueError, ∅).
Proof.
  apply (xyz_mesh_background_needs_levels (helpers := layouts) _ _ "background");
    reflexivity.
Defined.

Lemma xyz_mesh_unknown_edge_port_script :
  ∃ e, xyz_mesh (call_args filtered_layer_stack None None 1
                   (Some [("o9", o1_dict)])) ∅ = (Raise e, ∅).
Proof.
  apply (xyz_mesh_unknown_edge_port (helpers := layouts) _ _
           [("o9", o1_dict)] "o9" o1_dict).
  - reflexivity.
  - apply list_elem_of_here.
  - reflexivity.
Defined.

Lemma define_prisms_buffers_wellformed_script :
  ∃ prisms,
    define_prisms (layout_polygons c) filtered_layer_stack ∅ ∅ model None 1
    = Ok prisms
    ∧ Forall (fun p => NoDup (dict_keys (Prism.buffers p))) prisms.
Proof.
  destruct (define_prisms_run (helpers := layouts) (layout_polygons c)
              filtered_layer_stack ∅ ∅ model None 1 script_layers_have_polygons)
    as (prisms & Hrun & _).
  exists prisms. split; [exact Hrun|].
  pose proof (define_prisms_buffers_wellformed (helpers := layouts)
                _ _ _ _ _ _ _ _ Hrun) as Hall.
  apply (Forall2_Forall_r _ _ _ _ Hall).
  apply Forall_forall. intros n _ p (layer_ & z_to_bias & _ & _ & Hnd & _).
  exact Hnd.
Defined.
End xyz_mesh_runs.

(** ** The copy of the resolutions *)
Section premesh_facts.
Import Gmsh.
Local Open Scope R_scope.
Implicit Types (h : gmap loc obj) (l : loc).

(** Every item is copied to an item with the same key that refers to a
    new object holding the fields of the original; originals that are not
    shared get copies that are not shared either. *)
Lemma deepcopy_items_spec (h0 : gmap loc obj) items memo y h :
  h0 ⊆ h →
  map_Forall (fun l l' =>
    fresh_for h0 l'
    ∧ ∃ fields, h0 !! l = Some (ResolutionSpec fields)
                ∧ h !! l' = Some (ResolutionSpec fields)) memo →
  Forall (fun kl : string * loc =>
            ∃ fields, h0 !! kl.2 = Some (ResolutionSpec fields)) items →
  ∃ copies h',
    deepcopy_items items memo y h = (Ok (dict_update y copies), h')
    ∧ h ⊆ h'
    ∧ Forall2 (fun (kl kl' : string * loc) =>
                 kl'.1 = kl.1 ∧ fresh_for h0 kl'.2
                 ∧ ∃ fields, h0 !! kl.2 = Some (ResolutionSpec fields)
                             ∧ h' !! kl'.2 = Some (ResolutionSpec fields))
        items copies
    ∧ (NoDup items.*2 → (∀ l, l ∈ items.*2 → memo !! l = None) →
       NoDup copies.*2 ∧ ∀ l, l ∈ copies.*2 → h !! l = None).
Proof.
  revert memo y h. induction items as [|[key value] rest IH];
    intros memo y h Hsub Hmemo Hitems; simpl.
  - exists [], h. split; [done|]. split; [done|]. split; [constructor|].
    intros _ _. split; [constructor|]. intros l Hl. by apply elem_of_nil in Hl.
  - apply Forall_cons in Hitems as [[fields Hvalue] Hrest].
    destruct (memo !! value) as [value'|] eqn:Hm.
    + destruct (Hmemo value value' Hm) as (Hnew & fields' & Hf0 & Hf).
      destruct (IH memo (dict_set y key value') h Hsub Hmemo Hrest)
        as (copies & h' & Hrun & Hsub' & Hall & _).
      exists ((key, value') :: copies), h'. split; [done|]. split; [done|].
      split.
      * constructor; [|done]. simpl. split; [done|]. split; [done|].
        exists fields'. split; [done|]. by eapply lookup_weaken.
      * intros _ Hnone. rewrite Hnone in Hm; [done|]. simpl. left.
    + unfold mbind, heap_op_bind, read_spec.
      assert (h !! value = Some (ResolutionSpec fields)) as ->
        by (by eapply lookup_weaken).
      simpl.
      destruct (alloc_frame h0 h (ResolutionSpec fields) Hsub) as [Hnew Hsub1].
      set (value' := fresh (dom h)) in *.
      assert (h !! value' = None) as Hfresh_h
        by (apply not_elem_of_dom, is_fresh).
      assert (h ⊆ <[value' := ResolutionSpec fields]> h) as Hgrow
        by (by apply insert_subseteq).
      destruct (IH (<[value := value']> memo) (dict_set y key value')
                  (<[value' := ResolutionSpec fields]> h) Hsub1)
        as (copies & h' & Hrun & Hsub' & Hall & Hdistinct); [|done|].
      { apply map_Forall_insert_2.
        - split; [done|]. exists fields. split; [done|]. apply lookup_insert_eq.
        - intros l l' Hl. destruct (Hmemo l l' Hl) as (? & f & ? & ?).
          split; [done|]. exists f. split; [done|]. by eapply lookup_weaken. }
      exists ((key, value') :: copies), h'. split; [done|].
      split; [by etrans|]. split.
      * constructor; [|done]. simpl. split; [done|]. split; [done|].
        exists fields. split; [done|].
        eapply lookup_weaken; [apply lookup_insert_eq|done].
      * intros [Hnotin Hnd]%NoDup_cons Hnone. simpl.
        destruct Hdistinct as [Hnd' Hout]; [done| |].
        { intros l Hl. rewrite lookup_insert_ne; [apply Hnone; by right|].
          intros <-. done. }
        split.
        -- constructor; [|done]. intros Hin. apply Hout in Hin.
           by rewrite lookup_insert_eq in Hin.
        -- intros l [->|Hl]%elem_of_cons; [done|].
           apply Hout in Hl.
           destruct (decide (l = value')) as [->|Hne];
             [by rewrite lookup_insert_eq in Hl|].
           by rewrite lookup_insert_ne in Hl.
Qed.

Lemma dict_set_absent {V} (d : list (string * V)) k v :
  k ∉ dict_keys d → dict_set d k v = d ++ [(k, v)].
Proof.
  unfold dict_keys. induction d as [|[k' v'] d IH]; simpl; [done|].
  intros [Hne Hin]%not_elem_of_cons.
  rewrite decide_False by congruence. f_equal. by apply IH.
Qed.

Lemma dict_update_NoDup_app {V} (d l : list (string * V)) :
  NoDup (dict_keys (d ++ l)) → dict_update d l = d ++ l.
Proof.
  revert d. induction l as [|[k v] l IH]; intros d Hnd.
  - by rewrite app_nil_r.
  - rewrite dict_update_cons, dict_set_absent.
    + rewrite IH; rewrite <- app_assoc; done.
    + unfold dict_keys in *. rewrite fmap_app in Hnd.
      apply NoDup_app in Hnd as (_ & Hdisj & _).
      intros Hin. apply (Hdisj k Hin). left.
Qed.

Lemma scale_resolutions_spec values s h :
  NoDup values →
  Forall (fun l => ∃ fields v, h !! l = Some (ResolutionSpec fields)
                               ∧ dict_get fields "resolution" = Some v) values →
  ∃ h',
    scale_resolutions values s h = (Ok (), h')
    ∧ (∀ l, l ∉ values → h' !! l = h !! l)
    ∧ Forall (fun l => ∃ fields v,
                h !! l = Some (ResolutionSpec fields)
                ∧ dict_get fields "resolution" = Some v
                ∧ h' !! l = Some (ResolutionSpec
                                    (dict_set fields "resolution" (v * s))))
        values.
Proof.
  revert h. induction values as [|r rest IH]; intros h Hnd Hall; simpl.
  - exists h. split; [done|]. split; [done|constructor].
  - apply NoDup_cons in Hnd as [Hr Hnd].
    apply Forall_cons in Hall as [(fields & v & Hf & Hv) Hall].
    unfold mbind, heap_op_bind, read_spec, lift, dict_subscript.
    rewrite Hf. simpl. rewrite Hv. simpl.
    destruct (IH (<[r := ResolutionSpec (dict_set fields "resolution" (v * s))]> h)
                Hnd) as (h' & Hrun & Hout & Hin).
    { apply Forall_forall. intros l Hl.
      destruct (proj1 (Forall_forall _ _) Hall l Hl) as (f & w & Hlf & Hw).
      exists f, w. rewrite lookup_insert_ne; [done|]. by intros <-. }
    exists h'. split; [done|]. split.
    + intros l [Hne Hl]%not_elem_of_cons.
      rewrite Hout by done. by rewrite lookup_insert_ne.
    + constructor.
      * exists fields, v. split; [done|]. split; [done|].
        rewrite Hout by done. apply lookup_insert_eq.
      * apply Forall_forall. intros l Hl.
        destruct (proj1 (Forall_forall _ _) Hin l Hl) as (f & w & Hlf & Hw & Hl').
        rewrite lookup_insert_ne in Hlf by (by intros <-).
        by exists f, w.
Qed.

Lemma scale_resolutions_KeyError values s h :
  Forall (fun l => ∃ fields, h !! l = Some (ResolutionSpec fields)) values →
  Exists (fun l => ∃ fields, h !! l = Some (ResolutionSpec fields)
                             ∧ dict_get fields "resolution" = None) values →
  (scale_resolutions values s h).1 = Raise KeyError.
Proof.
  revert h. induction values as [|r rest IH]; intros h Hall Hex; simpl.
  - by apply Exists_nil in Hex.
  - apply Forall_cons in Hall as [(fields & Hf) Hall].
    unfold mbind, heap_op_bind, read_spec, lift, dict_subscript.
    rewrite Hf. simpl.
    destruct (dict_get fields "resolution") as [v|] eqn:Hv; simpl; [|done].
    apply IH.
    + eapply Forall_impl; [exact Hall|]. intros l (f & Hlf).
      destruct (decide (l = r)) as [->|Hne].
      * eexists. apply lookup_insert_eq.
      * exists f. by rewrite lookup_insert_ne.
    + apply Exists_cons in Hex as [(f & Hrf & Hnone)|Hex]; [congruence|].
      eapply Exists_impl; [exact Hex|]. intros l (f & Hlf & Hnone).
      exists f. split; [|done].
      rewrite lookup_insert_ne; [done|]. intros <-. congruence.
Qed.

(** What [deepcopy] returns for a well-formed dictionary of dictionaries. *)
Lemma deepcopy_spec h r entries :
  h !! r = Some (ResolutionMap entries) →
  NoDup (dict_keys entries) →
  Forall (fun kl : string * loc =>
            ∃ fields, h !! kl.2 = Some (ResolutionSpec fields)) entries →
  ∃ copies h1 outer,
    deepcopy (Some r) h = (Ok (Some outer), <[outer := ResolutionMap copies]> h1)
    ∧ h ⊆ h1 ∧ h1 !! outer = None
    ∧ Forall2 (fun (kl kl' : string * loc) =>
                 kl'.1 = kl.1 ∧ h !! kl'.2 = None
                 ∧ ∃ fields, h !! kl.2 = Some (ResolutionSpec fields)
                             ∧ h1 !! kl'.2 = Some (ResolutionSpec fields))
        entries copies
    ∧ (NoDup (dict_values entries) → NoDup (dict_values copies)).
Proof.
  intros Hr Hnd Hall.
  destruct (deepcopy_items_spec h entries ∅ [] h (reflexivity h))
    as (copies & h1 & Hrun & Hsub & Hcopies & Hdistinct);
    [apply map_Forall_empty|done|].
  assert (dict_keys copies = dict_keys entries) as Hkeys.
  { unfold dict_keys. clear -Hcopies.
    induction Hcopies as [|kl kl' ? ? (Hk & _) _ IH]; [done|]. simpl. by f_equal. }
  assert (dict_update [] copies = copies) as Hy.
  { apply (dict_update_NoDup_app [] copies). simpl. by rewrite Hkeys. }
  rewrite Hy in Hrun.
  exists copies, h1, (fresh (dom h1)).
  split.
  { simpl. unfold mbind, heap_op_bind, read_map. rewrite Hr. simpl.
    by rewrite Hrun. }
  split; [done|]. split; [apply not_elem_of_dom, is_fresh|]. split; [done|].
  intros Hvals. apply Hdistinct; [done|]. intros l _. apply lookup_empty.
Qed.

(** X18. Lines 300-308 on a dictionary of dictionaries that all have a
    "resolution" entry, no two layer names sharing one dictionary: the
    name [resolutions] ends up bound to a new dictionary with the same
    layer names, each bound to a new dictionary that equals the caller's
    except that "resolution" is multiplied by [global_scaling_premesh]. *)
Theorem premesh_resolutions_scales h r entries s :
  h !! r = Some (ResolutionMap entries) →
  entries ≠ [] →
  NoDup (dict_keys entries) →
  NoDup (dict_values entries) →
  Forall (fun kl : string * loc =>
            ∃ fields v, h !! kl.2 = Some (ResolutionSpec fields)
                        ∧ dict_get fields "resolution" = Some v) entries →
  ∃ outer h' entries',
    premesh_resolutions (Some r) s h = (Ok outer, h')
    ∧ h !! outer = None
    ∧ h' !! outer = Some (ResolutionMap entries')
    ∧ Forall2 (fun (kl kl' : string * loc) =>
                 kl'.1 = kl.1 ∧ h !! kl'.2 = None
                 ∧ ∃ fields v,
                     h !! kl.2 = Some (ResolutionSpec fields)
                     ∧ dict_get fields "resolution" = Some v
                     ∧ h' !! kl'.2
                       = Some (ResolutionSpec
                                 (dict_set fields "resolution" (v * s))))
        entries entries'.
Proof.
  intros Hr Hne Hnd Hvals Hall.
  destruct (deepcopy_spec h r entries Hr Hnd)
    as (copies & h1 & outer & Hcopy & Hsub & Houter & Hcopies & Hdistinct).
  { eapply Forall_impl; [exact Hall|]. intros kl (f & v & ? & _). by exists f. }
  specialize (Hdistinct Hvals).
  assert (copies ≠ []) as Hne'.
  { intros ->. apply Forall2_nil_inv_r in Hcopies. done. }
  set (h2 := <[outer := ResolutionMap copies]> h1) in *.
  assert (∀ l, l ∈ dict_values copies →
               l ≠ outer ∧ ∃ fields v, h2 !! l = Some (ResolutionSpec fields)
                                      ∧ dict_get fields "resolution" = Some v)
    as Hcopy_fields.
  { intros l Hl. unfold dict_values in Hl.
    apply list_elem_of_fmap in Hl as (kl' & -> & Hin).
    apply list_elem_of_lookup in Hin as [i Hi].
    destruct (Forall2_lookup_r _ _ _ _ _ Hcopies Hi)
      as (kl & Hkl & _ & _ & fields & Hf & Hf1).
    assert (kl'.2 ≠ outer) as Hneq by (intros Heq; rewrite Heq in Hf1; congruence).
    split; [done|].
    apply list_elem_of_lookup_2 in Hkl.
    destruct (proj1 (Forall_forall _ _) Hall kl Hkl) as (f & v & Hf' & Hv).
    exists fields, v. unfold h2. rewrite lookup_insert_ne by done.
    split; [done|]. congruence. }
  destruct (scale_resolutions_spec (dict_values copies) s h2 Hdistinct)
    as (h3 & Hscale & Hout & Hin).
  { apply Forall_forall. intros l Hl. by destruct (Hcopy_fields l Hl). }
  exists outer, h3, copies. split.
  { unfold premesh_resolutions, mbind, heap_op_bind. rewrite Hcopy.
    unfold read_map, h2. rewrite lookup_insert_eq. simpl.
    rewrite bool_decide_true by done. fold h2. by rewrite Hscale. }
  split.
  { destruct (h !! outer) eqn:Ho; [|done].
    eapply lookup_weaken in Ho; [|exact Hsub]. congruence. }
  split.
  { rewrite Hout; [apply lookup_insert_eq|].
    intros Hl. by destruct (Hcopy_fields outer Hl). }
  apply Forall2_same_length_lookup. split; [by eapply Forall2_length|].
  intros i kl kl' Hkl Hkl'.
  destruct (Forall2_lookup_l _ _ _ _ _ Hcopies Hkl)
    as (kl'' & Hkl'' & Hk & Hnew & fields & Hf & Hf1).
  rewrite Hkl' in Hkl''. injection Hkl'' as <-.
  split; [done|]. split; [done|].
  assert (kl'.2 ∈ dict_values copies) as Hmem.
  { unfold dict_values. apply list_elem_of_fmap. exists kl'. split; [done|].
    by eapply list_elem_of_lookup_2. }
  destruct (proj1 (Forall_forall _ _) Hin _ Hmem) as (f & v & Hf2 & Hv & Hf3).
  destruct (Hcopy_fields _ Hmem) as [Hneq _].
  unfold h2 in Hf2. rewrite lookup_insert_ne in Hf2 by done.
  assert (f = fields) as -> by congruence.
  by exists fields, v.
Qed.

Lemma premesh_resolutions_missing_entry h r entries s :
  h !! r = Some (ResolutionMap entries) →
  NoDup (dict_keys entries) →
  Forall (fun kl : string * loc =>
            ∃ fields, h !! kl.2 = Some (ResolutionSpec fields)) entries →
  Exists (fun kl : string * loc =>
            ∃ fields, h !! kl.2 = Some (ResolutionSpec fields)
                      ∧ dict_get fields "resolution" = None) entries →
  (premesh_resolutions (Some r) s h).1 = Raise KeyError
  ∧ h ⊆ (premesh_resolutions (Some r) s h).2.
Proof.
  intros Hr Hnd Hall Hex.
  split; [|by apply premesh_resolutions_frame].
  destruct (deepcopy_spec h r entries Hr Hnd Hall)
    as (copies & h1 & outer & Hcopy & Hsub & Houter & Hcopies & _).
  set (h2 := <[outer := ResolutionMap copies]> h1) in *.
  assert (∀ i kl kl', entries !! i = Some kl → copies !! i = Some kl' →
            ∃ fields, h !! kl.2 = Some (ResolutionSpec fields)
                      ∧ h2 !! kl'.2 = Some (ResolutionSpec fields)) as Hsame.
  { intros i kl kl' Hkl Hkl'.
    destruct (Forall2_lookup_l _ _ _ _ _ Hcopies Hkl)
      as (kl'' & Hkl'' & _ & _ & fields & Hf & Hf1).
    rewrite Hkl' in Hkl''. injection Hkl'' as <-.
    exists fields. split; [done|]. unfold h2.
    rewrite lookup_insert_ne; [done|]. intros Heq. rewrite <- Heq in Hf1.
    congruence. }
  assert (copies ≠ []) as Hne.
  { intros ->. apply Forall2_nil_inv_r in Hcopies. subst entries.
    by apply Exists_nil in Hex. }
  unfold premesh_resolutions, mbind, heap_op_bind. rewrite Hcopy.
  unfold read_map. fold h2. unfold h2 at 1. rewrite lookup_insert_eq. simpl.
  rewrite bool_decide_true by done.
  assert ((scale_resolutions (dict_values copies) s h2).1 = Raise KeyError) as Hk.
  { apply scale_resolutions_KeyError.
    - apply Forall_forall. intros l Hl. unfold dict_values in Hl.
      apply list_elem_of_fmap in Hl as (kl' & -> & Hin).
      apply list_elem_of_lookup in Hin as [i Hi].
      destruct (Forall2_lookup_r _ _ _ _ _ Hcopies Hi) as (kl & Hkl & _).
      destruct (Hsame i kl kl' Hkl Hi) as (fields & _ & Hf). by exists fields.
    - apply Exists_exists in Hex as (kl & Hin & fields & Hf & Hnone).
      apply list_elem_of_lookup in Hin as [i Hi].
      destruct (Forall2_lookup_l _ _ _ _ _ Hcopies Hi) as (kl' & Hkl' & _).
      destruct (Hsame i kl kl' Hi Hkl') as (fields' & Hf' & Hf2).
      apply Exists_exists. exists kl'.2. split.
      + unfold dict_values. apply list_elem_of_fmap. exists kl'.
        split; [done|]. by eapply list_elem_of_lookup_2.
      + exists fields'. split; [done|]. congruence. }
  destruct (scale_resolutions (dict_values copies) s h2) as [[[]|e] h3];
    simpl in *; congruence.
Qed.

(** X19. Lines 300-308 when some dictionary of [resolutions] has no
    "resolution" entry: [KeyError], and the caller's objects are as they
    were. *)
Theorem premesh_resolutions_KeyError h r entries s :
  h !! r = Some (ResolutionMap entries) →
  NoDup (dict_keys entries) →
  Forall (fun kl : string * loc =>
            ∃ fields, h !! kl.2 = Some (ResolutionSpec fields)) entries →
  Exists (fun kl : string * loc =>
            ∃ fields, h !! kl.2 = Some (ResolutionSpec fields)
                      ∧ dict_get fields "resolution" = None) entries →
  (premesh_resolutions (Some r) s h).1 = Raise KeyError
  ∧ h ⊆ (premesh_resolutions (Some r) s h).2.
Proof. apply premesh_resolutions_missing_entry. Qed.
End premesh_facts.

Section premesh_xyz_mesh.
Import Gmsh.
Local Open Scope R_scope.
Context {shapely : Shapely} {helpers : Helpers} {meshwell : Meshwell}.

(** X20. [xyz_mesh] does not return when a dictionary of [resolutions] lacks
    the "resolution" entry: whatever came before, the call ends in an
    exception. *)
Theorem xyz_mesh_needs_resolution_entries a h r entries :
  resolutions a = Some r →
  h !! r = Some (ResolutionMap entries) →
  NoDup (dict_keys entries) →
  Forall (fun kl : string * loc =>
            ∃ fields, h !! kl.2 = Some (ResolutionSpec fields)) entries →
  Exists (fun kl : string * loc =>
            ∃ fields, h !! kl.2 = Some (ResolutionSpec fields)
                      ∧ dict_get fields "resolution" = None) entries →
  ∃ e, (xyz_mesh a h).1 = Raise e.
Proof.
  intros Hres Hr Hnd Hall Hex.
  destruct (premesh_resolutions_missing_entry h r entries
              (global_scaling_premesh a) Hr Hnd Hall Hex) as [Hk _].
  destruct (xyz_mesh a h) as [res h'] eqn:Hrun. simpl.
  apply xyz_mesh_steps in Hrun
    as [(e & -> & _)|(lpd & ls & es & prisms & ents & _ & _ & _ & _ & _ & Hlast)];
    [by exists e|].
  destruct Hlast as [[_ [l Hl]]|(e & -> & _)]; [|by exists e].
  rewrite Hres in Hl. congruence.
Qed.
End premesh_xyz_mesh.

Section premesh_examples.
Import Gmsh Script.
Local Open Scope R_scope.
#[local] Existing Instances rings layouts checks.

Lemma premesh_resolutions_scales_script :
  ∃ outer h' entries',
    premesh_resolutions (Some 1%positive) 2 resolutions_heap = (Ok outer, h')
    ∧ h' !! outer = Some (ResolutionMap entries')
    ∧ length entries' = 1%nat.
Proof.
  destruct (premesh_resolutions_scales resolutions_heap 1%positive
              [("core", 2%positive)] 2)
    as (outer & h' & entries' & Hrun & _ & Houter & Hall).
  - reflexivity.
  - done.
  - apply NoDup_singleton.
  - apply NoDup_singleton.
  - constructor; [|constructor]. eexists _, _. split; reflexivity.
  - exists outer, h', entries'. split; [exact Hrun|]. split; [exact Houter|].
    apply Forall2_length in Hall. by rewrite <- Hall.
Defined.

Lemma distance_heap_wellformed :
  Forall (fun kl : string * loc =>
            ∃ fields, distance_heap !! kl.2 = Some (ResolutionSpec fields))
    [("core", 2%positive)]
  ∧ Exists (fun kl : string * loc =>
              ∃ fields, distance_heap !! kl.2 = Some (ResolutionSpec fields)
                        ∧ dict_get fields "resolution" = None)
      [("core", 2%positive)].
Proof.
  split.
  - constructor; [|constructor]. eexists. reflexivity.
  - apply Exists_cons_hd. eexists. split; reflexivity.
Qed.

Lemma premesh_resolutions_KeyError_script :
  (premesh_resolutions (Some 1%positive) 2 distance_heap).1 = Raise KeyError.
Proof.
  destruct distance_heap_wellformed as [Hall Hex].
  exact (proj1 (premesh_resolutions_KeyError distance_heap 1%positive
                  [("core", 2%positive)] 2 eq_refl (NoDup_singleton _) Hall Hex)).
Defined.

Lemma xyz_mesh_needs_resolution_entries_script :
  ∃ e, (xyz_mesh (call_args filtered_layer_stack (Some 1%positive) None 2 None)
          distance_heap).1 = Raise e.
Proof.
  destruct distance_heap_wellformed as [Hall Hex].
  exact (xyz_mesh_needs_resolution_entries (helpers := layouts)
           (call_args filtered_layer_stack (Some 1%positive) None 2 None)
           distance_heap 1%positive [("core", 2%positive)]
           eq_refl eq_refl (NoDup_singleton _) Hall Hex).
Defined.
End premesh_examples.

(** ** What define_prisms looks at *)
Section define_prisms_reads.
Import Gmsh.
Local Open Scope R_scope.
Context {shapely : Shapely} {helpers : Helpers} {meshwell : Meshwell}.

Lemma define_prisms_loop_agree lpd1 lpd2 bls phys1 phys2 mb1 mb2 model
    res1 res2 sf names acc :
  (∀ n, n ∈ names →
        dict_get lpd1 n = dict_get lpd2 n
        ∧ phys1 !! n = phys2 !! n
        ∧ mb1 !! n = mb2 !! n
        ∧ resolutions_get res1 n = resolutions_get res2 n) →
  define_prisms_loop lpd1 bls phys1 mb1 model res1 sf names acc
  = define_prisms_loop lpd2 bls phys2 mb2 model res2 sf names acc.
Proof.
  revert acc. induction names as [|n rest IH]; intros acc Hagree; [done|].
  destruct (Hagree n) as (Hlpd & Hphys & Hmb & Hres); [by left|].
  assert (∀ acc', define_prisms_loop lpd1 bls phys1 mb1 model res1 sf rest acc'
                  = define_prisms_loop lpd2 bls phys2 mb2 model res2 sf rest acc')
    as Hrest by (intros acc'; apply IH; intros m Hm; apply Hagree; by right).
  simpl. unfold dict_subscript. rewrite Hlpd.
  destruct (dict_get lpd2 n) as [polys|]; simpl; [|done].
  destruct (is_empty polys); [apply Hrest|].
  destruct (dict_get (LayerStack.layers bls) n) as [layer_|]; simpl; [|done].
  destruct (LayerLevel.z_to_bias layer_); [|apply Hrest].
  destruct (layer_mesh_order bls n); simpl; [|done].
  rewrite Hphys, Hmb, Hres. apply Hrest.
Qed.

(** X22. [define_prisms] only looks up the names of the bufferized layer
    stack: polygons, physical names, mesh flags and resolutions entered
    under any other name have no effect on the result. *)
Theorem define_prisms_ignores_other_layers
    lpd1 lpd2 ls phys1 phys2 mb1 mb2 model res1 res2 sf :
  (∀ n, n ∈ dict_keys (LayerStack.layers (bufferize ls)) →
        dict_get lpd1 n = dict_get lpd2 n
        ∧ phys1 !! n = phys2 !! n
        ∧ mb1 !! n = mb2 !! n
        ∧ resolutions_get res1 n = resolutions_get res2 n) →
  define_prisms lpd1 ls phys1 mb1 model res1 sf
  = define_prisms lpd2 ls phys2 mb2 model res2 sf.
Proof. intros Hagree. unfold define_prisms. by apply define_prisms_loop_agree. Qed.
End define_prisms_reads.

Section define_prisms_reads_example.
Import Gmsh Script.
Local Open Scope R_scope.
#[local] Existing Instances rings layouts checks.

(** A heater polygon, a name for it and a resolution for it, none of
    which is in the layer stack. *)
Lemma define_prisms_ignores_other_layers_script :
  define_prisms (layout_polygons c) filtered_layer_stack ∅ ∅ model None 1
  = define_prisms (("heater", waveguide) :: layout_polygons c)
      filtered_layer_stack {["heater" := "TiN"]} {["heater" := false]} model
      (Some [("heater", 7%positive)]) 1.
Proof.
  apply (define_prisms_ignores_other_layers (helpers := layouts)).
  intros n Hn. simpl in Hn.
  repeat (apply elem_of_cons in Hn as [->|Hn]; [by repeat split|]).
  by apply elem_of_nil in Hn.
Defined.
End define_prisms_reads_example.
